(** * Window lifecycle controller of the desktop shell

    A shallow embedding of [packages/main/src/mainWindow.ts]: the two
    functions [createWindow] and [restoreOrCreateWindow], the listeners they
    install, and the part of the GUI host (windows, message bus, dialogs,
    timers) those functions talk to.

    The host is a record of mutable stores threaded through a state and
    exception monad.  JavaScript closures are defunctionalised: every arrow
    function of the source is one constructor carrying the window handle it
    closes over.  An [await] splits a function in two: the part before it runs
    at once and parks a continuation in the host, the part after it runs when
    the host settles the promise.

    What is taken from the host's interface and not from the source:
    - a method or accessor of a destroyed window throws, except
      [isDestroyed], which answers, and [destroy], which does nothing;
    - an emitter calls its listeners in the order they were added and stops
      at the first that throws; an [async] listener never throws into the
      emitter;
    - a close request destroys the window unless a listener cancelled it;
    - [show] makes a window visible and focused, [hide] and [minimize] take
      the focus away, [restore] only ends the minimized state;
    - a picker opens whatever the state of the window it is given as
      parent. *)

From stdpp Require Import base list strings.

Open Scope string_scope.
Open Scope nat_scope.
Open Scope list_scope.

(** ** Values that travel over the message channels *)

#[local] Unset Elimination Schemes.
Inductive Value : Type :=
  | VUndefined
  | VBool (b : bool)
  | VStr (s : string)
  | VArr (xs : list Value)
  | VObj (fields : list (string * Value)).
#[local] Set Elimination Schemes.

(** Parameter of the two dialog channels: [{ dialogId: string; message: string }]. *)
Record DialogParam := mkParam {
  dialogId : string;
  message : string;
}.

(** Result of the native picker: [{ canceled, filePaths }]. *)
Record OpenDialogReturnValue := mkReturn {
  canceled : bool;
  filePaths : list string;
}.

Definition value_of_return (r : OpenDialogReturnValue) : Value :=
  VObj [("canceled", VBool (canceled r));
        ("filePaths", VArr (VStr <$> filePaths r))].

(** ** Build and platform environment *)

(** Values of the runtime's platform identifier. *)
Inductive Platform :=
  | aix | android | darwin | freebsd | linux | openbsd | sunos | win32.

(** Modelled from the spec: the constants [isMac] and [isLinux] imported from
    [./util], which is not part of the sources at hand.  They tell the Mac
    platform family and the Linux platform from the rest. *)
Definition isMac (p : Platform) : bool :=
  match p with darwin => true | _ => false end.

Definition isLinux (p : Platform) : bool :=
  match p with linux => true | _ => false end.

(** What the module reads from its surroundings: the platform, the build-mode
    switches of [import.meta.env], [__dirname], and the two library functions
    [path.join] and [new URL(rel, base).toString()], which stay abstract. *)
Record Env := mkEnv {
  platform : Platform;
  DEV : bool;
  VITE_DEV_SERVER_URL : option string;
  dirname : string;
  join : string → string → string;
  URL_toString : string → string → string;
}.

(** ** Window options *)

Inductive TitleBarStyle := hiddenInset | hidden.

Record WebPreferences := mkWebPreferences {
  webSecurity : bool;
  nativeWindowOpen : bool;
  webviewTag : bool;
  preload : string;
}.

(** [BrowserWindowConstructorOptions]; a field left out of the object
    literal is [None]. *)
Record Options := mkOptions {
  show : bool;
  width : nat;
  minWidth : nat;
  minHeight : nat;
  height : nat;
  webPreferences : WebPreferences;
  titleBarStyle : option TitleBarStyle;
  frame : option bool;
}.

Definition set_titleBarStyle (t : TitleBarStyle) (o : Options) : Options :=
  mkOptions (show o) (width o) (minWidth o) (minHeight o) (height o)
            (webPreferences o) (Some t) (frame o).

Definition set_frame (b : bool) (o : Options) : Options :=
  mkOptions (show o) (width o) (minWidth o) (minHeight o) (height o)
            (webPreferences o) (titleBarStyle o) (Some b).

(** ** The host *)

(** A window handle is the position of the window in the host's store. *)
Abbreviation WinId := nat (only parsing).

(** The arrow functions of [createWindow], each with the [browserWindow] it
    captured. *)
Inductive IpcListener :=
  | ForwardContainerStopped (browserWindow : WinId)
  | OpenFile (browserWindow : WinId)
  | OpenFolder (browserWindow : WinId).

Inductive WindowListener :=
  | OnReadyToShow (browserWindow : WinId)
  | OnClose (browserWindow : WinId).

Inductive AppListener :=
  | OnBeforeQuit (browserWindow : WinId).

Inductive TimerCallback :=
  | Heartbeat (browserWindow : WinId).

(** A window: the options it was constructed with, the listeners added with
    [on], and what [isDestroyed], [isMinimized], [isVisible] and [isFocused]
    answer; [win_url] is the page [loadURL] was called with. *)
Record BrowserWindow := mkWindow {
  win_options : Options;
  win_listeners : list (string * WindowListener);
  win_destroyed : bool;
  win_minimized : bool;
  win_visible : bool;
  win_focused : bool;
  win_devTools : bool;
  win_url : option string;
}.

(** The properties of the picker, [['openFile']] or [['openDirectory']]. *)
Inductive DialogProperty := openFile | openDirectory.

(** A picker that is on screen: its parent handle, its options, and the rest
    of the listener that waits for it (the captured window and parameter). *)
Record PendingDialog := mkDialog {
  dlg_parent : WinId;
  dlg_properties : list DialogProperty;
  dlg_message : string;
  dlg_window : WinId;
  dlg_param : DialogParam;
}.

(** Calls into the host that took effect, in program order. *)
Inductive Call :=
  | CNew (w : WinId) (o : Options)
  | CSetTimeout (cb : TimerCallback) (ms : nat)
  | CSend (w : WinId) (channel : string) (args : list Value)
  | CShowOpenDialog (parent : WinId) (props : list DialogProperty) (msg : string)
  | CLoadURL (w : WinId) (url : string)
  | CPreventDefault
  | CMinimize (w : WinId)
  | CHide (w : WinId)
  | CRestore (w : WinId)
  | CShow (w : WinId)
  | CFocus (w : WinId)
  | CDestroy (w : WinId)
  | COpenDevTools (w : WinId)
  | CDockShow
  | CDockHide.

(** The host: every window constructed so far, by handle; the listeners of
    the message bus and of the application, oldest first; the timers that
    have not fired; the pickers on screen; the windows whose load a call of
    the exported function is waiting for; whether the dock icon shows; the
    flag of the close event being dispatched; the calls made so far. *)
Record Host := mkHost {
  windows : list BrowserWindow;
  ipcMain : list (string * IpcListener);
  app : list (string * AppListener);
  timers : list TimerCallback;
  dialogs : list PendingDialog;
  loads : list WinId;
  dock : bool;
  defaultPrevented : bool;
  calls : list Call;
}.

Definition init : Host :=
  mkHost [] [] [] [] [] [] true false [].

(** ** The monad of host effects *)

(** A call either returns or throws; the state it leaves behind is kept in
    both cases, as a JavaScript exception does not undo earlier writes. *)
Inductive Outcome (A : Type) :=
  | Ok (a : A)
  | Throw (err : string).
Arguments Ok {A} a.
Arguments Throw {A} err.

Definition M (A : Type) : Type := Host → Host * Outcome A.

Definition ret {A} (a : A) : M A := λ s, (s, Ok a).

Definition bind {A B} (m : M A) (k : A → M B) : M B :=
  λ s, match m s with
       | (s', Ok a) => k a s'
       | (s', Throw e) => (s', Throw e)
       end.

Notation "'do' x <- m ; k" := (bind m (λ x, k))
  (at level 10, x name, m at level 100, k at level 200,
   format "'[v' 'do'  x  <-  m ; '/' k ']'").
Notation "m ;; k" := (bind m (λ _, k))
  (at level 100, k at level 200, right associativity,
   format "'[v' m ;; '/' k ']'").

Definition throw {A} (err : string) : M A := λ s, (s, Throw err).

Definition when (b : bool) (m : M unit) : M unit := if b then m else ret tt.

(** An [async] function never throws into its caller: what its body throws
    before the first [await] rejects the promise it returns. *)
Definition async (m : M unit) : M unit := λ s, ((m s).1, Ok tt).

(** [EventEmitter.emit]: the listeners run in the order they were added, and
    the first one that throws ends the round. *)
Fixpoint emit {L} (call : L → M unit) (listeners : list L) : M unit :=
  match listeners with
  | [] => ret tt
  | l :: rest => call l ;; emit call rest
  end.

(** The listeners a registry holds under one name, oldest first. *)
Definition listeners {L} (name : string) (registry : list (string * L)) : list L :=
  snd <$> filter (λ nl, nl.1 = name) registry.

(** ** Field updates *)

Definition set_windows (ws : list BrowserWindow) (s : Host) : Host :=
  mkHost ws (ipcMain s) (app s) (timers s) (dialogs s) (loads s)
         (dock s) (defaultPrevented s) (calls s).
Definition set_ipcMain (x : list (string * IpcListener)) (s : Host) : Host :=
  mkHost (windows s) x (app s) (timers s) (dialogs s) (loads s)
         (dock s) (defaultPrevented s) (calls s).
Definition set_app (x : list (string * AppListener)) (s : Host) : Host :=
  mkHost (windows s) (ipcMain s) x (timers s) (dialogs s) (loads s)
         (dock s) (defaultPrevented s) (calls s).
Definition set_timers (x : list TimerCallback) (s : Host) : Host :=
  mkHost (windows s) (ipcMain s) (app s) x (dialogs s) (loads s)
         (dock s) (defaultPrevented s) (calls s).
Definition set_dialogs (x : list PendingDialog) (s : Host) : Host :=
  mkHost (windows s) (ipcMain s) (app s) (timers s) x (loads s)
         (dock s) (defaultPrevented s) (calls s).
Definition set_loads (x : list WinId) (s : Host) : Host :=
  mkHost (windows s) (ipcMain s) (app s) (timers s) (dialogs s) x
         (dock s) (defaultPrevented s) (calls s).
Definition set_dock (x : bool) (s : Host) : Host :=
  mkHost (windows s) (ipcMain s) (app s) (timers s) (dialogs s) (loads s)
         x (defaultPrevented s) (calls s).
Definition set_defaultPrevented (x : bool) (s : Host) : Host :=
  mkHost (windows s) (ipcMain s) (app s) (timers s) (dialogs s) (loads s)
         (dock s) x (calls s).
Definition log (c : Call) (s : Host) : Host :=
  mkHost (windows s) (ipcMain s) (app s) (timers s) (dialogs s) (loads s)
         (dock s) (defaultPrevented s) (calls s ++ [c]).

Definition with_listeners (x : list (string * WindowListener)) (w : BrowserWindow) :=
  mkWindow (win_options w) x (win_destroyed w) (win_minimized w)
           (win_visible w) (win_focused w) (win_devTools w) (win_url w).
Definition with_destroyed (x : bool) (w : BrowserWindow) :=
  mkWindow (win_options w) (win_listeners w) x (win_minimized w)
           (win_visible w) (win_focused w) (win_devTools w) (win_url w).
Definition with_minimized (x : bool) (w : BrowserWindow) :=
  mkWindow (win_options w) (win_listeners w) (win_destroyed w) x
           (win_visible w) (win_focused w) (win_devTools w) (win_url w).
Definition with_visible (x : bool) (w : BrowserWindow) :=
  mkWindow (win_options w) (win_listeners w) (win_destroyed w) (win_minimized w)
           x (win_focused w) (win_devTools w) (win_url w).
Definition with_focused (x : bool) (w : BrowserWindow) :=
  mkWindow (win_options w) (win_listeners w) (win_destroyed w) (win_minimized w)
           (win_visible w) x (win_devTools w) (win_url w).
Definition with_devTools (x : bool) (w : BrowserWindow) :=
  mkWindow (win_options w) (win_listeners w) (win_destroyed w) (win_minimized w)
           (win_visible w) (win_focused w) x (win_url w).
Definition with_url (x : option string) (w : BrowserWindow) :=
  mkWindow (win_options w) (win_listeners w) (win_destroyed w) (win_minimized w)
           (win_visible w) (win_focused w) (win_devTools w) x.

(** ** Host interface used by the controller *)

Definition gets {A} (f : Host → A) : M A := λ s, (s, Ok (f s)).
Definition modify (f : Host → Host) : M unit := λ s, (f s, Ok tt).

Definition destroyed_error : string := "TypeError: Object has been destroyed".

(** Every method and accessor of a window except [isDestroyed] and [destroy]
    throws once the window is destroyed; [use w] is that check. *)
Definition use (w : WinId) : M BrowserWindow :=
  do ws <- gets windows;
  match ws !! w with
  | Some win => if win_destroyed win then throw destroyed_error else ret win
  | None => throw destroyed_error
  end.

Definition update (w : WinId) (f : BrowserWindow → BrowserWindow) (c : Call) : M unit :=
  do win <- use w;
  modify (λ s, log c (set_windows (<[w := f win]> (windows s)) s)).

(** [new BrowserWindow(options)]: the new window is appended to the store and
    starts shown or hidden as [show] says. *)
Definition new_BrowserWindow (o : Options) : M WinId :=
  do w <- gets (λ s, length (windows s));
  modify (λ s, log (CNew w o)
    (set_windows (windows s ++ [mkWindow o [] false false (show o) false false None]) s)) ;;
  ret w.

(** [BrowserWindow.getAllWindows().find(w => !w.isDestroyed())]: the first
    window of the store that is not destroyed. *)
Definition find_not_destroyed (ws : list BrowserWindow) : option WinId :=
  fst <$> list_find (λ win, win_destroyed win = false) ws.

Definition isMinimized (w : WinId) : M bool := do win <- use w; ret (win_minimized win).
Definition isVisible (w : WinId) : M bool := do win <- use w; ret (win_visible win).

Definition restore_window (w : WinId) : M unit :=
  update w (with_minimized false) (CRestore w).
Definition show_window (w : WinId) : M unit :=
  update w (λ win, with_focused true (with_visible true win)) (CShow w).
Definition focus_window (w : WinId) : M unit :=
  update w (with_focused true) (CFocus w).
Definition minimize_window (w : WinId) : M unit :=
  update w (λ win, with_focused false (with_minimized true win)) (CMinimize w).
Definition hide_window (w : WinId) : M unit :=
  update w (λ win, with_focused false (with_visible false win)) (CHide w).

(** [destroy] on a window that is gone already does nothing. *)
Definition destroy_window (w : WinId) : M unit :=
  do ws <- gets windows;
  match ws !! w with
  | Some win =>
      if win_destroyed win then ret tt
      else modify (λ s, log (CDestroy w)
             (set_windows (<[w := with_destroyed true win]> (windows s)) s))
  | None => ret tt
  end.

Definition window_on (w : WinId) (name : string) (l : WindowListener) : M unit :=
  do win <- use w;
  modify (λ s, set_windows
    (<[w := with_listeners (win_listeners win ++ [(name, l)]) win]> (windows s)) s).

Definition webContents_send (w : WinId) (channel : string) (args : list Value) : M unit :=
  do win <- use w; modify (log (CSend w channel args)).

Definition webContents_openDevTools (w : WinId) : M unit :=
  update w (with_devTools true) (COpenDevTools w).

(** [loadURL] starts the navigation and returns a promise; the caller that
    awaits it is parked in [loads]. *)
Definition loadURL (w : WinId) (url : string) : M unit :=
  update w (with_url (Some url)) (CLoadURL w url) ;;
  modify (λ s, set_loads (loads s ++ [w]) s).

Definition ipcMain_on (channel : string) (l : IpcListener) : M unit :=
  modify (λ s, set_ipcMain (ipcMain s ++ [(channel, l)]) s).

Definition app_on (name : string) (l : AppListener) : M unit :=
  modify (λ s, set_app (app s ++ [(name, l)]) s).

Definition setTimeout (cb : TimerCallback) (ms : nat) : M unit :=
  modify (λ s, log (CSetTimeout cb ms) (set_timers (timers s ++ [cb]) s)).

Definition dock_show : M unit := modify (λ s, log CDockShow (set_dock true s)).
Definition dock_hide : M unit := modify (λ s, log CDockHide (set_dock false s)).

Definition preventDefault : M unit :=
  modify (λ s, log CPreventDefault (set_defaultPrevented true s)).

(** [dialog.showOpenDialog(parent, options)] puts a picker on screen and
    returns a promise; [window] and [param] are what the awaiting listener
    still needs when it resumes. *)
Definition showOpenDialog (parent : WinId) (props : list DialogProperty)
    (msg : string) (window : WinId) (param : DialogParam) : M unit :=
  modify (λ s, log (CShowOpenDialog parent props msg)
    (set_dialogs (dialogs s ++ [mkDialog parent props msg window param]) s)).

(** ** The controller *)

Section Controller.

Variable env : Env.

(** *** [createWindow] *)

(** Lines 26 to 51: the options literal and the two platform blocks. *)
Definition browserWindowConstructorOptions : Options :=
  let o0 :=
    mkOptions false 1050 640 600 600
      (mkWebPreferences false true false
         (join env (dirname env) "../../preload/dist/index.cjs"))
      None None in
  let o1 := if isMac (platform env) then set_titleBarStyle hiddenInset o0 else o0 in
  if true then
    let o2 := set_titleBarStyle hidden o1 in
    if negb (isMac (platform env)) then set_frame false o2 else o2
  else o1.

Definition productionUrl : string :=
  URL_toString env "../renderer/dist/index.html" ("file://" ++ dirname env).

Definition pageUrl : string :=
  match DEV env, VITE_DEV_SERVER_URL env with
  | true, Some url => url
  | _, _ => productionUrl
  end.

(** The part of [createWindow] up to its [await]; the handle is what the
    function returns once the load has finished. *)
Definition createWindow : M WinId :=
  do browserWindow <- new_BrowserWindow browserWindowConstructorOptions;
  setTimeout (Heartbeat browserWindow) 5000 ;;
  ipcMain_on "container-stopped-event" (ForwardContainerStopped browserWindow) ;;
  window_on browserWindow "ready-to-show" (OnReadyToShow browserWindow) ;;
  ipcMain_on "dialog:openFile" (OpenFile browserWindow) ;;
  ipcMain_on "dialog:openFolder" (OpenFolder browserWindow) ;;
  window_on browserWindow "close" (OnClose browserWindow) ;;
  app_on "before-quit" (OnBeforeQuit browserWindow) ;;
  loadURL browserWindow pageUrl ;;
  ret browserWindow.

(** *** The listeners *)

Definition timer_callback (cb : TimerCallback) : M unit :=
  match cb with
  | Heartbeat browserWindow =>
      webContents_send browserWindow "container-stopped-event" [VStr "containerID"]
  end.

(** Reading a property of a parameter that was not passed throws. *)
Definition required (param : option DialogParam) : M DialogParam :=
  match param with
  | Some p => ret p
  | None => throw "TypeError: Cannot read properties of undefined"
  end.

(** A listener of the message bus is called with the arguments of the
    emission: [event] first, [param] second. *)
Definition ipc_listener (event : Value) (param : option DialogParam)
    (l : IpcListener) : M unit :=
  match l with
  | ForwardContainerStopped browserWindow =>
      webContents_send browserWindow "container-stopped-event" [event]
  | OpenFile browserWindow =>
      async (do p <- required param;
             showOpenDialog browserWindow [openFile] (message p) browserWindow p)
  | OpenFolder browserWindow =>
      async (do p <- required param;
             showOpenDialog browserWindow [openDirectory] (message p) browserWindow p)
  end.

(** What a dialog listener does after its [await]. *)
Definition dialog_resume (d : PendingDialog) (response : OpenDialogReturnValue) : M unit :=
  webContents_send (dlg_window d) "dialog:open-file-or-folder-response"
    [VStr (dialogId (dlg_param d)); value_of_return response].

Definition window_listener (l : WindowListener) : M unit :=
  match l with
  | OnReadyToShow browserWindow =>
      show_window browserWindow ;;
      when (isMac (platform env)) dock_show ;;
      when (DEV env) (webContents_openDevTools browserWindow)
  | OnClose browserWindow =>
      preventDefault ;;
      if isLinux (platform env) then minimize_window browserWindow
      else
        hide_window browserWindow ;;
        when (isMac (platform env)) dock_hide
  end.

Definition app_listener (l : AppListener) : M unit :=
  match l with
  | OnBeforeQuit browserWindow => destroy_window browserWindow
  end.

(** *** [restoreOrCreateWindow] *)

(** Lines 142 to 150, which run on the window found or, after the
    [await], on the window created. *)
Definition restoreOrCreateWindow_resume (window : WinId) : M unit :=
  do minimized <- isMinimized window;
  when minimized (restore_window window) ;;
  do visible <- isVisible window;
  when (negb visible) (show_window window) ;;
  focus_window window.

Definition restoreOrCreateWindow : M unit :=
  do window <- gets (λ s, find_not_destroyed (windows s));
  match window with
  | None => createWindow ;; ret tt
  | Some window => restoreOrCreateWindow_resume window
  end.

(** ** The event loop *)

(** One turn of the host's loop: a call of the exported function, a promise
    settling, a window event, an emission on the bus, or a timer.  Pending
    promises and timers are picked by their position in the queue. *)
Inductive Event :=
  | Activate
  | Loaded (k : nat)
  | LoadFailed (k : nat)
  | ReadyToShow (w : WinId)
  | CloseRequest (w : WinId)
  | BeforeQuit
  | Ipc (channel : string) (event : Value) (param : option DialogParam)
  | DialogClosed (k : nat) (response : OpenDialogReturnValue)
  | DialogFailed (k : nat)
  | TimerFired (k : nat).

(** Window events are only ever emitted on a window that is not destroyed. *)
Definition emit_on_window (w : WinId) (k : BrowserWindow → M unit) : M unit :=
  do ws <- gets windows;
  match ws !! w with
  | Some win => if win_destroyed win then ret tt else k win
  | None => ret tt
  end.

Definition dispatch (e : Event) : M unit :=
  match e with
  | Activate => restoreOrCreateWindow
  | Loaded k =>
      do ls <- gets loads;
      match ls !! k with
      | Some window =>
          modify (set_loads (delete k ls)) ;;
          restoreOrCreateWindow_resume window
      | None => ret tt
      end
  | LoadFailed k => modify (λ s, set_loads (delete k (loads s)) s)
  | ReadyToShow w =>
      emit_on_window w (λ win,
        emit window_listener (listeners "ready-to-show" (win_listeners win)))
  | CloseRequest w =>
      emit_on_window w (λ win,
        modify (set_defaultPrevented false) ;;
        emit window_listener (listeners "close" (win_listeners win)) ;;
        do prevented <- gets defaultPrevented;
        if prevented then ret tt else destroy_window w)
  | BeforeQuit =>
      do ls <- gets (λ s, listeners "before-quit" (app s));
      emit app_listener ls
  | Ipc channel event param =>
      do ls <- gets (λ s, listeners channel (ipcMain s));
      emit (ipc_listener event param) ls
  | DialogClosed k response =>
      do ds <- gets dialogs;
      match ds !! k with
      | Some d => modify (set_dialogs (delete k ds)) ;; dialog_resume d response
      | None => ret tt
      end
  | DialogFailed k => modify (λ s, set_dialogs (delete k (dialogs s)) s)
  | TimerFired k =>
      do ts <- gets timers;
      match ts !! k with
      | Some cb => modify (set_timers (delete k ts)) ;; timer_callback cb
      | None => ret tt
      end
  end.

Definition step (e : Event) (s : Host) : Host := (dispatch e s).1.

Fixpoint run (es : list Event) (s : Host) : Host :=
  match es with
  | [] => s
  | e :: es' => run es' (step e s)
  end.

End Controller.

(** * Vocabulary of the properties *)

(** ** Windows *)

(** Window [w] exists and is not destroyed. *)
Definition is_live (s : Host) (w : WinId) : Prop :=
  ∃ win, windows s !! w = Some win ∧ win_destroyed win = false.

(** The windows that are not destroyed. *)
Definition live_windows (s : Host) : list BrowserWindow :=
  filter (λ win, win_destroyed win = false) (windows s).

(** The window is there, restored, visible and focused. *)
Definition front (s : Host) (w : WinId) : Prop :=
  ∃ win, windows s !! w = Some win ∧ win_destroyed win = false ∧
         win_minimized win = false ∧ win_visible win = true ∧
         win_focused win = true.

(** The calls lines 142 to 150 make on a window in state [win]. *)
Definition activation_calls (w : WinId) (win : BrowserWindow) : list Call :=
  (if win_minimized win then [CRestore w] else []) ++
  (if win_visible win then [] else [CShow w]) ++
  [CFocus w].

(** Turn [e] completes a call of the exported function on window [w]. *)
Definition returns_front env (e : Event) (s : Host) (w : WinId) : Prop :=
  (dispatch env e s).2 = Ok tt ∧
  front (step env e s) w ∧
  ∃ win, windows s !! w = Some win ∧
         calls (step env e s) = calls s ++ activation_calls w win.

(** What the host looks like after a close request on window [w], which was
    in state [win]. *)
Definition closed (env : Env) (w : WinId) (win : BrowserWindow) (s : Host) : Host :=
  if isLinux (platform env) then
    mkHost (<[w := with_focused false (with_minimized true win)]> (windows s))
           (ipcMain s) (app s) (timers s) (dialogs s) (loads s)
           (dock s) true (calls s ++ [CPreventDefault; CMinimize w])
  else if isMac (platform env) then
    mkHost (<[w := with_focused false (with_visible false win)]> (windows s))
           (ipcMain s) (app s) (timers s) (dialogs s) (loads s)
           false true (calls s ++ [CPreventDefault; CHide w; CDockHide])
  else
    mkHost (<[w := with_focused false (with_visible false win)]> (windows s))
           (ipcMain s) (app s) (timers s) (dialogs s) (loads s)
           (dock s) true (calls s ++ [CPreventDefault; CHide w]).

(** ** Listener tables *)

(** What one run of [createWindow] for window [w] registers on the bus, on
    the window and on the application. *)
Definition ipc_registrations (w : WinId) : list (string * IpcListener) :=
  [("container-stopped-event", ForwardContainerStopped w);
   ("dialog:openFile", OpenFile w);
   ("dialog:openFolder", OpenFolder w)].

Definition window_registrations (w : WinId) : list (string * WindowListener) :=
  [("ready-to-show", OnReadyToShow w); ("close", OnClose w)].

Definition app_registration (w : WinId) : string * AppListener :=
  ("before-quit", OnBeforeQuit w).

(** The listeners of one of the three channels when the windows [ws] were
    constructed, oldest first; no other channel has any. *)
Definition channel_listeners (channel : string) (ws : list WinId) : list IpcListener :=
  if String.eqb channel "container-stopped-event" then ForwardContainerStopped <$> ws
  else if String.eqb channel "dialog:openFile" then OpenFile <$> ws
  else if String.eqb channel "dialog:openFolder" then OpenFolder <$> ws
  else [].

(** ** Observations *)

Definition destroyed_flags (s : Host) : list bool :=
  win_destroyed <$> windows s.

Definition listener_tables (s : Host) : list (list (string * WindowListener)) :=
  win_listeners <$> windows s.

(** The three listener tables: of the bus, of the application, of each window. *)
Definition registry (s : Host) :=
  (ipcMain s, app s, listener_tables s).

(** The listener tables after [n] constructions. *)
Definition constructed (n : nat) :=
  (seq 0 n ≫= ipc_registrations,
   app_registration <$> seq 0 n,
   window_registrations <$> seq 0 n).

(** The shape of every host the controller can bring about: the tables hold
    what the constructions so far registered, and every window but the
    youngest is destroyed. *)
Record wf (s : Host) : Prop := mkWf {
  wf_registry : registry s = constructed (length (windows s));
  wf_stale : ∀ w, S w < length (windows s) → destroyed_flags s !! w = Some true;
}.

(** A computation relates every host to the host it leaves behind. *)
Definition preserves {A} (R : relation Host) (m : M A) : Prop :=
  ∀ s, R s (m s).1.

(** The observation [f] is the same before and after. *)
Definition keeps {X} (f : Host → X) : relation Host := λ s s', f s' = f s.

(** No window is added and none comes back from being destroyed. *)
Definition flags_grow : relation Host :=
  λ s s', Forall2 (λ a b : bool, a = true → b = true)
                  (destroyed_flags s) (destroyed_flags s').

(** The turns in which a [destroy] or a construction can happen: every other
    turn leaves the destroyed flags alone on any host. *)
Definition may_destroy (e : Event) : bool :=
  match e with
  | Activate | BeforeQuit | CloseRequest _ => true
  | _ => false
  end.

(** ** Dialog requests and responses *)

Definition response_channel : string := "dialog:open-file-or-folder-response".

(** The responses among the calls: window and arguments of every send on the
    response channel. *)
Definition response_of (c : Call) : option (WinId * list Value) :=
  match c with
  | CSend w channel args =>
      if String.eqb channel response_channel then Some (w, args) else None
  | _ => None
  end.

Definition responses (s : Host) : list (WinId * list Value) :=
  omap response_of (calls s).

(** The first argument of the response is the string [d]. *)
Definition carries (d : string) (r : WinId * list Value) : bool :=
  match r.2 with
  | VStr d' :: _ => String.eqb d' d
  | _ => false
  end.

Definition responses_to (d : string) (s : Host) : list (WinId * list Value) :=
  filter (λ r, carries d r = true) (responses s).

(** A request on one of the two dialog channels whose parameter has
    [dialogId] [d]. *)
Definition is_request (d : string) (e : Event) : bool :=
  match e with
  | Ipc channel _ (Some p) =>
      (String.eqb channel "dialog:openFile" || String.eqb channel "dialog:openFolder")
      && String.eqb (dialogId p) d
  | _ => false
  end.

(** The pickers on screen that were opened for [d] by the listener of a
    window that is not destroyed. *)
Definition waiting (d : string) (s : Host) : list PendingDialog :=
  filter (λ pd, dialogId (dlg_param pd) = d ∧
                destroyed_flags s !! dlg_window pd = Some false) (dialogs s).

(** Responses sent for [d] plus pickers that are still going to be answered
    for [d]. *)
Definition balance (d : string) (s : Host) : nat :=
  length (responses_to d s) + length (waiting d s).

(** Turns after which every request is still going to be answered: the
    application does not quit and no picker fails. *)
Definition answerable (e : Event) : bool :=
  match e with
  | BeforeQuit | DialogFailed _ => false
  | _ => true
  end.

(** The pickers one message on [channel] opens: one for each listener of a
    dialog channel, none on any other channel or without a parameter. *)
Definition opened (channel : string) (param : option DialogParam)
    (ws : list WinId) : list PendingDialog :=
  match param with
  | Some p =>
      if String.eqb channel "container-stopped-event" then []
      else if String.eqb channel "dialog:openFile" then
        (λ w, mkDialog w [openFile] (message p) w p) <$> ws
      else if String.eqb channel "dialog:openFolder" then
        (λ w, mkDialog w [openDirectory] (message p) w p) <$> ws
      else []
  | None => []
  end.

(** ** Sample environments and runs *)

(** A production build on Linux and a development build on Mac; the two
    library functions are stand-ins that only put their arguments together. *)
Definition linux_env : Env :=
  mkEnv linux false None "/opt/app/packages/main/dist"
        (λ a b, a ++ "/" ++ b)%string (λ rel base, base ++ "/" ++ rel)%string.

Definition mac_dev_env : Env :=
  mkEnv darwin true (Some "http://localhost:3000/") "/opt/app/packages/main/dist"
        (λ a b, a ++ "/" ++ b)%string (λ rel base, base ++ "/" ++ rel)%string.

(** Two requests in flight at once, the later one answered first, and the
    same two answered in the order they were made. *)
Definition two_requests : list Event :=
  [Ipc "dialog:openFile" VUndefined (Some (mkParam "A" "pick a file"));
   Ipc "dialog:openFolder" VUndefined (Some (mkParam "B" "pick a folder"));
   DialogClosed 1 (mkReturn false ["/home/user/project"]);
   DialogClosed 0 (mkReturn true [])].

Definition two_requests_in_order : list Event :=
  [Ipc "dialog:openFile" VUndefined (Some (mkParam "A" "pick a file"));
   Ipc "dialog:openFolder" VUndefined (Some (mkParam "B" "pick a folder"));
   DialogClosed 0 (mkReturn true []);
   DialogClosed 0 (mkReturn false ["/home/user/project"])].

(** A window nobody listens to, as the host would have it without
    [createWindow]. *)
Definition bare_window : BrowserWindow :=
  mkWindow (browserWindowConstructorOptions linux_env) [] false false true true
           false None.

Definition bare_host : Host :=
  mkHost [bare_window] [] [] [] [] [] true false [].

(** ** Calls of one kind *)

(** The calls on the dock icon: [true] for [show], [false] for [hide]. *)
Definition dock_call_of (c : Call) : option bool :=
  match c with
  | CDockShow => Some true
  | CDockHide => Some false
  | _ => None
  end.

Definition dock_calls (s : Host) : list bool := omap dock_call_of (calls s).

(** The windows whose developer tools were opened, one entry a call. *)
Definition devtools_of (c : Call) : option WinId :=
  match c with
  | COpenDevTools w => Some w
  | _ => None
  end.

Definition devtools_calls (s : Host) : list WinId := omap devtools_of (calls s).

(** The calls that set a window up: the constructor, the timer, the load. *)
Definition construction_of (c : Call) : option Call :=
  match c with
  | CNew _ _ | CSetTimeout _ _ | CLoadURL _ _ => Some c
  | _ => None
  end.

Definition constructions (s : Host) : list Call := omap construction_of (calls s).

(** What one run of [createWindow] for window [w] contributes to them. *)
Definition construction_calls (env : Env) (w : WinId) : list Call :=
  [CNew w (browserWindowConstructorOptions env);
   CSetTimeout (Heartbeat w) 5000;
   CLoadURL w (pageUrl env)].

(** What a window was constructed with and what it was told to load. *)
Definition blueprint (win : BrowserWindow) : Options * option string :=
  (win_options win, win_url win).

Definition blueprints (s : Host) : list (Options * option string) :=
  blueprint <$> windows s.

Definition visible_flags (s : Host) : list bool := win_visible <$> windows s.

(** The turns in which [show] can be called. *)
Definition may_show (e : Event) : bool :=
  match e with
  | Activate | Loaded _ | ReadyToShow _ => true
  | _ => false
  end.

(** What the host looks like after window [w], which was in state [win],
    became ready to show. *)
Definition revealed (env : Env) (w : WinId) (win : BrowserWindow) (s : Host) : Host :=
  let shown := with_focused true (with_visible true win) in
  mkHost (<[w := if DEV env then with_devTools true shown else shown]> (windows s))
         (ipcMain s) (app s) (timers s) (dialogs s) (loads s)
         (if isMac (platform env) then true else dock s)
         (defaultPrevented s)
         (calls s ++ [CShow w] ++
            (if isMac (platform env) then [CDockShow] else []) ++
            (if DEV env then [COpenDevTools w] else [])).

(** * Reasoning about host computations *)

(** ** Relations kept by a computation *)

Global Instance keeps_preorder {X} (f : Host → X) : PreOrder (keeps f).
Proof. split; unfold keeps; [intros s | intros s1 s2 s3 H1 H2]; congruence. Qed.

Section preserves.
Context {R : relation Host} `{!PreOrder R}.

Lemma preserves_ret {A} (a : A) : preserves R (ret a).
Proof. intros s. reflexivity. Qed.

Lemma preserves_throw {A} e : preserves R (throw (A:=A) e).
Proof. intros s. reflexivity. Qed.

Lemma preserves_gets {A} (f : Host → A) : preserves R (gets f).
Proof. intros s. reflexivity. Qed.

Lemma preserves_bind {A B} (m : M A) (k : A → M B) :
  preserves R m → (∀ a, preserves R (k a)) → preserves R (bind m k).
Proof.
  intros Hm Hk s. unfold bind. specialize (Hm s).
  destruct (m s) as [s' [a|e]]; simpl in *; [|done].
  etrans; [exact Hm | apply Hk].
Qed.

Lemma preserves_when b m : preserves R m → preserves R (when b m).
Proof. destruct b; simpl; [done | intros _; apply preserves_ret]. Qed.

Lemma preserves_async m : preserves R m → preserves R (async m).
Proof. intros H s. apply H. Qed.

Lemma preserves_emit_Forall {L} (call : L → M unit) ls :
  Forall (λ l, preserves R (call l)) ls → preserves R (emit call ls).
Proof.
  induction 1 as [|l ls Hl _ IH]; simpl.
  - apply preserves_ret.
  - apply preserves_bind; [exact Hl | intros _; exact IH].
Qed.

Lemma preserves_emit {L} (call : L → M unit) ls :
  (∀ l, preserves R (call l)) → preserves R (emit call ls).
Proof. intros H. apply preserves_emit_Forall, Forall_forall. auto. Qed.

Lemma preserves_use w : preserves R (use w).
Proof.
  unfold use. apply preserves_bind; [apply preserves_gets | intros ws].
  destruct (ws !! w) as [win|]; [destruct (win_destroyed win)|];
    auto using preserves_ret, preserves_throw.
Qed.
End preserves.

(** ** Primitive calls and the observations they leave alone *)

Lemma fmap_insert_same {X} (g : BrowserWindow → X)
    (ws : list BrowserWindow) (w : nat) win win' :
  ws !! w = Some win → g win' = g win → g <$> <[w := win']> ws = g <$> ws.
Proof.
  intros Hw Hg. rewrite list_fmap_insert, Hg.
  apply list_insert_id. by rewrite list_lookup_fmap, Hw.
Qed.

Ltac unfold_host :=
  unfold restore_window, show_window, focus_window, minimize_window, hide_window,
    webContents_openDevTools, webContents_send, loadURL, isMinimized, isVisible,
    window_on, destroy_window, ipcMain_on, app_on, setTimeout, dock_show,
    dock_hide, preventDefault, showOpenDialog, update, use,
    bind, ret, throw, gets, modify, when, async.

(** Evaluates the field updates, innermost first. *)
Ltac host_norm :=
  cbv [set_windows set_ipcMain set_app set_timers set_dialogs set_loads set_dock
       set_defaultPrevented log with_listeners with_destroyed with_minimized
       with_visible with_focused with_devTools with_url
       windows ipcMain app timers dialogs loads dock defaultPrevented calls
       win_options win_listeners win_destroyed win_minimized win_visible
       win_focused win_devTools win_url].

(** Solves [preserves (keeps f) m] for a primitive [m] by running it. *)
Ltac leaf :=
  let s := fresh "s" in
  intros s; unfold keeps, registry, destroyed_flags, listener_tables;
  unfold_host; simpl;
  repeat case_match; simplify_eq/=; try done;
  first [ solve [ eapply fmap_insert_same; [eassumption | done] ]
        | f_equal; solve [ eapply fmap_insert_same; [eassumption | done] ] ].

(** Splits a compound computation along its binds and branches. *)
Ltac pres_step :=
  lazymatch goal with
  | |- preserves _ (ret _) => apply preserves_ret
  | |- preserves _ (throw _) => apply preserves_throw
  | |- preserves _ (gets _) => apply preserves_gets
  | |- preserves _ (use _) => apply preserves_use
  | |- preserves _ (when _ _) => apply preserves_when
  | |- preserves _ (async _) => apply preserves_async
  | |- preserves _ (emit _ _) => apply preserves_emit; intros ?
  | |- preserves _ (bind _ _) => apply preserves_bind; [|intros ?]
  | |- preserves _ (match ?x with _ => _ end) => destruct x
  end.

Ltac pres_with tac := repeat first [ pres_step | tac ].

Global Instance flags_grow_preorder : PreOrder flags_grow.
Proof.
  split.
  - intros s. unfold flags_grow. induction (destroyed_flags s); constructor; auto.
  - intros s1 s2 s3. unfold flags_grow.
    generalize (destroyed_flags s1) (destroyed_flags s2) (destroyed_flags s3).
    intros l1 l2 l3 H12. revert l3.
    induction H12; intros l3 H23; inversion H23; subst; constructor; auto.
Qed.

Lemma keeps_flags_grow s s' : keeps destroyed_flags s s' → flags_grow s s'.
Proof.
  unfold keeps, flags_grow. intros ->.
  induction (destroyed_flags s); constructor; auto.
Qed.

Lemma preserves_keeps_grow {A} (m : M A) :
  preserves (keeps destroyed_flags) m → preserves flags_grow m.
Proof. intros H s. apply keeps_flags_grow, H. Qed.

Lemma destroy_window_grow w : preserves flags_grow (destroy_window w).
Proof.
  intros s. unfold destroy_window, bind, gets, ret, modify. simpl.
  destruct (windows s !! w) as [win|] eqn:Hw; [|reflexivity].
  destruct (win_destroyed win) eqn:Hd; [reflexivity|]. simpl.
  unfold flags_grow, destroyed_flags. simpl. rewrite list_fmap_insert. simpl.
  apply Forall2_same_length_lookup_2.
  - by rewrite length_insert.
  - intros i a b Ha Hb Ht. destruct (decide (i = w)) as [->|Hne].
    + rewrite list_lookup_insert_eq in Hb; [congruence|].
      rewrite length_fmap. by eapply lookup_lt_Some.
    + rewrite list_lookup_insert_ne in Hb by done. congruence.
Qed.

Section frames.
Variable env : Env.

Lemma window_listener_keeps_flags l :
  preserves (keeps destroyed_flags) (window_listener env l).
Proof. destruct l; simpl; pres_with leaf. Qed.

Lemma window_listener_keeps_registry l :
  preserves (keeps registry) (window_listener env l).
Proof. destruct l; simpl; pres_with leaf. Qed.

Lemma ipc_listener_keeps_flags event param l :
  preserves (keeps destroyed_flags) (ipc_listener event param l).
Proof. destruct l; simpl; unfold required; pres_with leaf. Qed.

Lemma ipc_listener_keeps_registry event param l :
  preserves (keeps registry) (ipc_listener event param l).
Proof. destruct l; simpl; unfold required; pres_with leaf. Qed.

Lemma app_listener_grow l : preserves flags_grow (app_listener l).
Proof. destruct l; simpl. apply destroy_window_grow. Qed.

Lemma app_listener_keeps_registry l : preserves (keeps registry) (app_listener l).
Proof. destruct l; simpl; pres_with leaf. Qed.

Lemma resume_keeps_flags w :
  preserves (keeps destroyed_flags) (restoreOrCreateWindow_resume w).
Proof. unfold restoreOrCreateWindow_resume; pres_with leaf. Qed.

Lemma resume_keeps_registry w :
  preserves (keeps registry) (restoreOrCreateWindow_resume w).
Proof. unfold restoreOrCreateWindow_resume; pres_with leaf. Qed.
End frames.

(** ** What one construction registers *)

Lemma flags_length s : length (destroyed_flags s) = length (windows s).
Proof. unfold destroyed_flags. by rewrite length_fmap. Qed.

Lemma flags_grow_length s s' :
  flags_grow s s' → length (windows s') = length (windows s).
Proof.
  intros H. apply Forall2_length in H. by rewrite !flags_length in H.
Qed.

Lemma flags_grow_lookup s s' w :
  flags_grow s s' → destroyed_flags s !! w = Some true →
  destroyed_flags s' !! w = Some true.
Proof.
  intros H Hw. destruct (Forall2_lookup_l _ _ _ _ _ H Hw) as (b & Hb & Himp).
  by rewrite Hb, Himp.
Qed.

Lemma wf_grow s s' : wf s → keeps registry s s' → flags_grow s s' → wf s'.
Proof.
  intros [Hr Hs] Hk Hg. pose proof (flags_grow_length _ _ Hg) as Hlen.
  split.
  - rewrite Hlen. by rewrite Hk.
  - intros w Hw. rewrite Hlen in Hw. eauto using flags_grow_lookup.
Qed.

Lemma is_live_flags s w : is_live s w ↔ destroyed_flags s !! w = Some false.
Proof.
  unfold is_live, destroyed_flags. rewrite list_lookup_fmap. split.
  - intros (win & -> & Hd). simpl. by rewrite Hd.
  - destruct (windows s !! w) as [win|]; simpl; [|done].
    intros [= Hd]. eauto.
Qed.

Lemma live_windows_flags s :
  length (live_windows s) = length (filter (λ b, b = false) (destroyed_flags s)).
Proof.
  unfold live_windows, destroyed_flags.
  induction (windows s) as [|win ws IH]; [done|].
  rewrite fmap_cons, !filter_cons. simpl.
  destruct (decide (win_destroyed win = false)); simpl; by rewrite IH.
Qed.

Lemma flags_grow_live s s' :
  flags_grow s s' → length (live_windows s') ≤ length (live_windows s).
Proof.
  rewrite !live_windows_flags. unfold flags_grow.
  generalize (destroyed_flags s) (destroyed_flags s'). intros l l' H.
  induction H as [|a b l l' Hab _ IH]; [done|].
  rewrite !filter_cons.
  destruct a, b; repeat case_decide; simpl; try done; try lia.
Qed.

(** ** [createWindow], run on any host *)

Section create.
Variable env : Env.

Lemma options_show : show (browserWindowConstructorOptions env) = false.
Proof. unfold browserWindowConstructorOptions. by destruct (isMac _). Qed.

Lemma createWindow_spec s :
  let n := length (windows s) in
  createWindow env s =
    (mkHost
       (windows s ++
          [mkWindow (browserWindowConstructorOptions env)
             (window_registrations n) false false false false false
             (Some (pageUrl env))])
       (ipcMain s ++ ipc_registrations n)
       (app s ++ [app_registration n])
       (timers s ++ [Heartbeat n])
       (dialogs s)
       (loads s ++ [n])
       (dock s) (defaultPrevented s)
       (calls s ++ [CNew n (browserWindowConstructorOptions env);
                    CSetTimeout (Heartbeat n) 5000;
                    CLoadURL n (pageUrl env)]),
     Ok n).
Proof.
  intros n. subst n. destruct s as [ws im ap ts ds ls dk dp cs].
  unfold createWindow, new_BrowserWindow.
  unfold_host. simpl.
  rewrite !list_lookup_middle by done. simpl.
  rewrite !insert_app_r_alt, !Nat.sub_diag by done. simpl.
  rewrite !list_lookup_middle by done. simpl.
  rewrite !insert_app_r_alt, !Nat.sub_diag by done. simpl.
  rewrite !list_lookup_middle by done. simpl.
  rewrite !insert_app_r_alt, !Nat.sub_diag by done. simpl.
  host_norm. rewrite options_show, <- !app_assoc. reflexivity.
Qed.
End create.

(** ** One turn of the loop *)

Section turns.
Variable env : Env.

Ltac keeps_leaf :=
  first [ apply window_listener_keeps_flags | apply window_listener_keeps_registry
        | apply ipc_listener_keeps_flags | apply ipc_listener_keeps_registry
        | apply app_listener_keeps_registry
        | apply resume_keeps_flags | apply resume_keeps_registry
        | solve [leaf] ].

Ltac grow_leaf :=
  first [ apply destroy_window_grow | apply app_listener_grow
        | apply preserves_keeps_grow; keeps_leaf ].

Ltac open_dispatch :=
  unfold dispatch, emit_on_window, dialog_resume, timer_callback.

Lemma dispatch_keeps_registry e :
  e ≠ Activate → preserves (keeps registry) (dispatch env e).
Proof. destruct e; [done|..]; intros _; open_dispatch; pres_with keeps_leaf. Qed.

Lemma dispatch_grow e :
  e ≠ Activate → preserves flags_grow (dispatch env e).
Proof. destruct e; [done|..]; intros _; open_dispatch; pres_with grow_leaf. Qed.

Lemma dispatch_keeps_flags e :
  may_destroy e = false → preserves (keeps destroyed_flags) (dispatch env e).
Proof. destruct e; try done; intros _; open_dispatch; pres_with keeps_leaf. Qed.

Lemma activate_or_not (e : Event) : e = Activate ∨ e ≠ Activate.
Proof. destruct e; first [by left | by right]. Qed.

(** *** The search of [restoreOrCreateWindow] *)

Lemma find_not_destroyed_Some (ws : list BrowserWindow) w :
  find_not_destroyed ws = Some w →
  ∃ win, ws !! w = Some win ∧ win_destroyed win = false.
Proof.
  unfold find_not_destroyed. destruct (list_find _ ws) as [[i win]|] eqn:Hf; [|done].
  simpl. intros [= ->]. apply list_find_Some in Hf as (Hw & Hd & _). eauto.
Qed.

Lemma find_not_destroyed_None (ws : list BrowserWindow) :
  find_not_destroyed ws = None ↔ Forall (λ win, win_destroyed win = true) ws.
Proof.
  unfold find_not_destroyed. rewrite fmap_None, list_find_None.
  apply Forall_iff. intros win. by destruct (win_destroyed win).
Qed.

Lemma none_found_none_live s :
  find_not_destroyed (windows s) = None → live_windows s = [].
Proof.
  rewrite find_not_destroyed_None. unfold live_windows. intros Hf.
  induction Hf as [|win ws Hd _ IH]; [done|].
  rewrite filter_cons, decide_False by congruence. done.
Qed.

Lemma activate_found s w :
  find_not_destroyed (windows s) = Some w →
  dispatch env Activate s = restoreOrCreateWindow_resume w s.
Proof.
  intros Hf. simpl. unfold restoreOrCreateWindow, bind at 1, gets. by rewrite Hf.
Qed.

Lemma activate_created s :
  find_not_destroyed (windows s) = None →
  dispatch env Activate s = ((createWindow env s).1, Ok tt).
Proof.
  intros Hf. simpl. unfold restoreOrCreateWindow, bind at 1, gets. rewrite Hf.
  unfold bind. rewrite createWindow_spec. reflexivity.
Qed.

(** *** The number of windows that are not destroyed *)

Lemma step_live s e :
  length (live_windows s) ≤ 1 → length (live_windows (step env e s)) ≤ 1.
Proof.
  intros Hs. destruct (activate_or_not e) as [->|Hne].
  - unfold step. destruct (find_not_destroyed (windows s)) as [w|] eqn:Hf.
    + rewrite (activate_found _ _ Hf).
      etrans; [|exact Hs]. apply flags_grow_live, keeps_flags_grow.
      apply resume_keeps_flags.
    + rewrite (activate_created _ Hf), createWindow_spec. simpl.
      apply find_not_destroyed_None in Hf.
      unfold live_windows. simpl. rewrite filter_app, length_app.
      replace (filter _ (windows s)) with (@nil BrowserWindow); [done|].
      symmetry. induction Hf as [|win ws Hd _ IH]; [done|].
      rewrite filter_cons. rewrite decide_False by congruence. done.
  - etrans; [|exact Hs]. by apply flags_grow_live, dispatch_grow.
Qed.

Lemma run_live es s :
  length (live_windows s) ≤ 1 → length (live_windows (run env es s)) ≤ 1.
Proof.
  revert s. induction es as [|e es IH]; intros s Hs; simpl; [done|].
  apply IH, step_live, Hs.
Qed.
End turns.

(** ** Every host the loop reaches is well formed *)

Section reachable.
Variable env : Env.

Lemma constructed_S n :
  constructed (S n) =
    ((seq 0 n ≫= ipc_registrations) ++ ipc_registrations n,
     (app_registration <$> seq 0 n) ++ [app_registration n],
     (window_registrations <$> seq 0 n) ++ [window_registrations n]).
Proof.
  unfold constructed. rewrite seq_S. simpl.
  rewrite bind_app, !fmap_app. reflexivity.
Qed.

Lemma init_wf : wf init.
Proof. split; [done | simpl; lia]. Qed.

Lemma created_wf s :
  wf s → find_not_destroyed (windows s) = None → wf (createWindow env s).1.
Proof.
  intros [Hr Hs] Hf. rewrite createWindow_spec. simpl.
  apply find_not_destroyed_None in Hf.
  split; simpl.
  - rewrite length_app, Nat.add_1_r, constructed_S.
    unfold registry, constructed, listener_tables in *. simpl.
    rewrite fmap_app. simpl.
    injection Hr as H1 H2 H3. by rewrite H1, H2, H3.
  - intros w. rewrite length_app, Nat.add_1_r. intros Hw.
    unfold destroyed_flags. simpl. rewrite fmap_app.
    assert (w < length (windows s)) as Hlt by lia.
    rewrite lookup_app_l by by rewrite length_fmap.
    rewrite list_lookup_fmap.
    destruct (lookup_lt_is_Some_2 _ _ Hlt) as [win Hwin]. rewrite Hwin. simpl.
    f_equal. by eapply (Forall_lookup_1 _ _ _ _ Hf).
Qed.

Lemma step_wf s e : wf s → wf (step env e s).
Proof.
  intros Hwf. unfold step. destruct (activate_or_not e) as [->|Hne].
  - destruct (find_not_destroyed (windows s)) as [w|] eqn:Hf.
    + rewrite (activate_found _ _ _ Hf). eapply wf_grow; [done|..].
      * apply resume_keeps_registry.
      * apply keeps_flags_grow, resume_keeps_flags.
    + rewrite (activate_created _ _ Hf). simpl. by apply created_wf.
  - eapply wf_grow; [done|..].
    + by apply dispatch_keeps_registry.
    + by apply dispatch_grow.
Qed.

Lemma run_wf_from es s : wf s → wf (run env es s).
Proof.
  revert s. induction es as [|e es IH]; intros s Hs; simpl; [done|].
  by apply IH, step_wf.
Qed.

Lemma run_wf es : wf (run env es init).
Proof. apply run_wf_from, init_wf. Qed.

End reachable.

(** ** Window events on a well-formed host *)

Section window_events.
Variable env : Env.

Lemma wf_window_listeners s w win :
  wf s → windows s !! w = Some win → win_listeners win = window_registrations w.
Proof.
  intros [Hr _] Hw. unfold registry, constructed in Hr.
  assert (listener_tables s !! w = Some (win_listeners win)) as Hl.
  { unfold listener_tables. by rewrite list_lookup_fmap, Hw. }
  assert (listener_tables s = window_registrations <$> seq 0 (length (windows s)))
    as Heq by congruence.
  rewrite Heq, list_lookup_fmap in Hl.
  apply lookup_lt_Some in Hw.
  rewrite lookup_seq_lt in Hl by done. simpl in Hl. congruence.
Qed.

Lemma close_request_spec s w win :
  wf s → windows s !! w = Some win → win_destroyed win = false →
  dispatch env (CloseRequest w) s = (closed env w win s, Ok tt).
Proof.
  intros Hwf Hw Hd. pose proof (wf_window_listeners _ _ _ Hwf Hw) as Hl.
  clear Hwf. destruct s as [ws im ap ts ds ls dk dp cs]. simpl in Hw.
  unfold dispatch, emit_on_window, closed.
  unfold bind at 1, gets. simpl. rewrite Hw, Hd, Hl. simpl.
  destruct (isLinux (platform env)), (isMac (platform env));
    unfold_host; simpl; rewrite Hw, Hd; host_norm;
    rewrite <- ?app_assoc; reflexivity.
Qed.

Lemma closed_flags s w win :
  windows s !! w = Some win →
  destroyed_flags (closed env w win s) = destroyed_flags s.
Proof.
  intros Hw. unfold closed, destroyed_flags.
  destruct (isLinux _); [|destruct (isMac _)]; simpl;
    by apply fmap_insert_same with win.
Qed.

(** A close request leaves the destroyed flags of a well-formed host as
    they are, whichever window it is for. *)
Lemma close_request_keeps_flags s w :
  wf s → destroyed_flags (step env (CloseRequest w) s) = destroyed_flags s.
Proof.
  intros Hwf. unfold step.
  destruct (windows s !! w) as [win|] eqn:Hw;
    [destruct (win_destroyed win) eqn:Hd|].
  - simpl. unfold emit_on_window, bind, gets. by rewrite Hw, Hd.
  - rewrite (close_request_spec _ _ _ Hwf Hw Hd). simpl. by apply closed_flags.
  - simpl. unfold emit_on_window, bind, gets. by rewrite Hw.
Qed.
End window_events.

(** ** The listener tables read by name *)

Lemma listeners_app {L} name (r1 r2 : list (string * L)) :
  listeners name (r1 ++ r2) = listeners name r1 ++ listeners name r2.
Proof. unfold listeners. by rewrite filter_app, fmap_app. Qed.

Lemma listeners_before_quit ws :
  listeners "before-quit" (app_registration <$> ws) = OnBeforeQuit <$> ws.
Proof.
  induction ws as [|w ws IH]; [done|].
  change (app_registration <$> w :: ws)
    with ([app_registration w] ++ (app_registration <$> ws)).
  rewrite listeners_app, IH. reflexivity.
Qed.

Lemma listeners_ipc_registrations channel w :
  listeners channel (ipc_registrations w) = channel_listeners channel [w].
Proof.
  unfold listeners, channel_listeners, ipc_registrations.
  rewrite !filter_cons, filter_nil. simpl.
  destruct (String.eqb_spec channel "container-stopped-event") as [->|H1]; [done|].
  destruct (String.eqb_spec channel "dialog:openFile") as [->|H2]; [done|].
  destruct (String.eqb_spec channel "dialog:openFolder") as [->|H3]; [done|].
  rewrite !decide_False by congruence. done.
Qed.

Lemma channel_listeners_cons channel w ws :
  channel_listeners channel (w :: ws) =
    channel_listeners channel [w] ++ channel_listeners channel ws.
Proof. unfold channel_listeners. by repeat case_match. Qed.

Lemma listeners_ipc channel ws :
  listeners channel (ws ≫= ipc_registrations) = channel_listeners channel ws.
Proof.
  induction ws as [|w ws IH].
  - unfold channel_listeners. by repeat case_match.
  - rewrite bind_cons, listeners_app, IH, listeners_ipc_registrations.
    by rewrite <- channel_listeners_cons.
Qed.

Lemma wf_ipc_listeners s channel :
  wf s →
  listeners channel (ipcMain s) = channel_listeners channel (seq 0 (length (windows s))).
Proof.
  intros [Hr _]. unfold registry, constructed in Hr.
  assert (ipcMain s = seq 0 (length (windows s)) ≫= ipc_registrations) as ->
    by congruence.
  apply listeners_ipc.
Qed.

Lemma wf_app_listeners s :
  wf s →
  listeners "before-quit" (app s) = OnBeforeQuit <$> seq 0 (length (windows s)).
Proof.
  intros [Hr _]. unfold registry, constructed in Hr.
  assert (app s = app_registration <$> seq 0 (length (windows s))) as ->
    by congruence.
  apply listeners_before_quit.
Qed.

(** ** Quitting *)

Lemma destroy_window_spec s w :
  w < length (windows s) →
  (destroy_window w s).2 = Ok tt ∧
  destroyed_flags (destroy_window w s).1 !! w = Some true.
Proof.
  intros Hw. destruct (lookup_lt_is_Some_2 _ _ Hw) as [win Hwin].
  unfold destroy_window, bind, gets, ret, modify. simpl. rewrite Hwin.
  destruct (win_destroyed win) eqn:Hd; simpl.
  - split; [done|]. unfold destroyed_flags. by rewrite list_lookup_fmap, Hwin; simpl; rewrite Hd.
  - split; [done|]. unfold destroyed_flags. simpl.
    rewrite list_lookup_fmap, list_lookup_insert_eq by done. done.
Qed.

Lemma emit_before_quit ws s :
  Forall (λ w, w < length (windows s)) ws →
  let r := emit app_listener (OnBeforeQuit <$> ws) s in
  r.2 = Ok tt ∧ flags_grow s r.1 ∧
  Forall (λ w, destroyed_flags r.1 !! w = Some true) ws.
Proof.
  revert s. induction ws as [|w ws IH]; intros s Hws; simpl.
  - repeat split; [reflexivity | constructor].
  - inversion Hws as [|? ? Hw Hrest]; subst.
    destruct (destroy_window_spec s w Hw) as [Hok Hflag].
    pose proof (destroy_window_grow w s) as Hgrow.
    unfold bind. destruct (destroy_window w s) as [s1 [[]|e]] eqn:Hdw; simpl in *; [|done].
    pose proof (flags_grow_length _ _ Hgrow) as Hlen.
    destruct (IH s1) as (Hok' & Hgrow' & Hall).
    { eapply Forall_impl; [exact Hrest|]. simpl. intros. by rewrite Hlen. }
    repeat split; [done | by etrans |].
    constructor; [|done]. by eapply flags_grow_lookup.
Qed.

Lemma before_quit_spec env s w :
  wf s → w < length (windows s) →
  (dispatch env BeforeQuit s).2 = Ok tt ∧
  destroyed_flags (step env BeforeQuit s) !! w = Some true.
Proof.
  intros Hwf Hw. unfold step. simpl. unfold bind at 1 2, gets.
  rewrite (wf_app_listeners _ Hwf).
  destruct (emit_before_quit (seq 0 (length (windows s))) s) as (Hok & _ & Hall).
  { apply Forall_forall. intros i Hi. apply elem_of_seq in Hi. lia. }
  split; [done|].
  rewrite Forall_forall in Hall. apply Hall, elem_of_seq. lia.
Qed.

(** * The controller's properties *)

(** ** Construction *)

(** C6: on every platform the options handed to the window constructor have
    the title bar style [hidden], the Mac style [hiddenInset] set first being
    overwritten, and [frame] is set to [false] on the platforms that are not
    Mac and left out on Mac; the window [createWindow] builds carries exactly
    these options. *)
Theorem window_chrome env s :
  let o := browserWindowConstructorOptions env in
  titleBarStyle o = Some hidden ∧
  frame o = (if isMac (platform env) then None else Some false) ∧
  win_options <$> windows (createWindow env s).1 !! length (windows s) = Some o.
Proof.
  simpl. repeat split.
  - unfold browserWindowConstructorOptions. by destruct (isMac _).
  - unfold browserWindowConstructorOptions. by destruct (isMac _).
  - rewrite createWindow_spec. simpl. by rewrite list_lookup_middle.
Qed.

(** C5: the page loaded into the window is the development server's URL when
    the development flag is set and that URL is defined, and in every other
    case the production file ['../renderer/dist/index.html'] resolved against
    ['file://' + __dirname]; [createWindow] loads that page and nothing else. *)
Theorem content_source env s :
  (∀ url, DEV env = true → VITE_DEV_SERVER_URL env = Some url → pageUrl env = url) ∧
  (DEV env = false ∨ VITE_DEV_SERVER_URL env = None →
   pageUrl env =
     URL_toString env "../renderer/dist/index.html" ("file://" ++ dirname env)) ∧
  win_url <$> windows (createWindow env s).1 !! length (windows s)
    = Some (Some (pageUrl env)) ∧
  last (calls (createWindow env s).1) = Some (CLoadURL (length (windows s)) (pageUrl env)).
Proof.
  repeat split.
  - intros url Hdev Hurl. unfold pageUrl. by rewrite Hdev, Hurl.
  - intros [Hdev|Hurl]; unfold pageUrl, productionUrl.
    + by rewrite Hdev.
    + rewrite Hurl. by destruct (DEV env).
  - rewrite createWindow_spec. simpl. by rewrite list_lookup_middle.
  - rewrite createWindow_spec. simpl. by rewrite last_app.
Qed.

(** ** One window *)

(** C1: whatever the host does (calls of the exported function, promises
    settling, window events, messages, timers, quitting), at most one window
    is not destroyed; the exported function takes the first window that is
    not destroyed, and it constructs a window, one, only when there is none. *)
Theorem singleton_window env es :
  let s := run env es init in
  length (live_windows s) ≤ 1 ∧
  match find_not_destroyed (windows s) with
  | Some w =>
      is_live s w ∧
      length (windows (step env Activate s)) = length (windows s)
  | None =>
      live_windows s = [] ∧
      length (windows (step env Activate s)) = S (length (windows s))
  end.
Proof.
  simpl. split.
  - apply run_live. simpl. lia.
  - set (s := run env es init).
    destruct (find_not_destroyed (windows s)) as [w|] eqn:Hf.
    + split; [by apply find_not_destroyed_Some|].
      unfold step. rewrite (activate_found _ _ _ Hf).
      apply flags_grow_length, keeps_flags_grow, resume_keeps_flags.
    + split.
      * by apply none_found_none_live.
      * unfold step. rewrite (activate_created _ _ Hf), createWindow_spec. simpl.
        rewrite length_app. simpl. lia.
Qed.

(** ** Closing and quitting *)

Lemma live_kept env s e w :
  wf s → e ≠ BeforeQuit → is_live s w → is_live (step env e s) w.
Proof.
  intros Hwf Hne. rewrite !is_live_flags. intros Hw.
  destruct (may_destroy e) eqn:Hmd.
  - destruct e; try done.
    + unfold step. destruct (find_not_destroyed (windows s)) as [w'|] eqn:Hf.
      * rewrite (activate_found _ _ _ Hf).
        by rewrite (resume_keeps_flags w' s).
      * rewrite (activate_created _ _ Hf), createWindow_spec.
        unfold destroyed_flags in *. simpl. rewrite fmap_app.
        by apply lookup_app_l_Some.
    + by rewrite close_request_keeps_flags.
  - unfold step. by rewrite (dispatch_keeps_flags env e Hmd s).
Qed.

(** C2: a close request on a window leaves it not destroyed, its listener
    having cancelled the default action; no turn of the loop other than the
    before-quit hook takes a window to destroyed; that hook does. *)
Theorem close_never_destroys env es w :
  let s := run env es init in
  is_live s w →
  (is_live (step env (CloseRequest w) s) w ∧
   defaultPrevented (step env (CloseRequest w) s) = true) ∧
  (∀ e, e ≠ BeforeQuit → is_live (step env e s) w) ∧
  ¬ is_live (step env BeforeQuit s) w.
Proof.
  simpl. set (s := run env es init). intros Hlive.
  assert (wf s) as Hwf by apply run_wf.
  repeat split.
  - by apply live_kept.
  - destruct Hlive as (win & Hw & Hd). unfold step.
    rewrite (close_request_spec _ _ _ _ Hwf Hw Hd). unfold closed. simpl.
    by repeat case_match.
  - intros e He. by apply live_kept.
  - rewrite is_live_flags. destruct Hlive as (win & Hw & _).
    apply lookup_lt_Some in Hw.
    destruct (before_quit_spec env s w Hwf Hw) as [_ ->]. done.
Qed.

(** C7: a close request on a window that is not destroyed minimizes it on
    Linux; on every other platform it hides the window, and on Mac it hides
    the dock icon as well.  Nothing else is called. *)
Theorem close_request_visibility env es w win :
  let s := run env es init in
  windows s !! w = Some win → win_destroyed win = false →
  let s' := step env (CloseRequest w) s in
  if isLinux (platform env) then
    windows s' !! w = Some (with_focused false (with_minimized true win)) ∧
    dock s' = dock s ∧
    calls s' = calls s ++ [CPreventDefault; CMinimize w]
  else
    windows s' !! w = Some (with_focused false (with_visible false win)) ∧
    if isMac (platform env) then
      dock s' = false ∧ calls s' = calls s ++ [CPreventDefault; CHide w; CDockHide]
    else
      dock s' = dock s ∧ calls s' = calls s ++ [CPreventDefault; CHide w].
Proof.
  simpl. set (s := run env es init). intros Hw Hd.
  assert (wf s) as Hwf by apply run_wf.
  unfold step. rewrite (close_request_spec _ _ _ _ Hwf Hw Hd). unfold closed.
  apply lookup_lt_Some in Hw.
  destruct (isLinux _); [|destruct (isMac _)]; simpl;
    rewrite list_lookup_insert_eq by done; done.
Qed.

(** ** Activation *)

Lemma resume_spec s w win :
  windows s !! w = Some win → win_destroyed win = false →
  ∃ win',
    restoreOrCreateWindow_resume w s =
      (mkHost (<[w := win']> (windows s)) (ipcMain s) (app s) (timers s)
              (dialogs s) (loads s) (dock s) (defaultPrevented s)
              (calls s ++ activation_calls w win), Ok tt) ∧
    win_destroyed win' = false ∧ win_minimized win' = false ∧
    win_visible win' = true ∧ win_focused win' = true ∧
    (win_minimized win = false → win_visible win = true →
     win_focused win = true → win' = win).
Proof.
  intros Hw Hd. pose proof (lookup_lt_Some _ _ _ Hw) as Hlt.
  destruct s as [ws im ap ts ds lds dk dp cs].
  destruct win as [o ls d m v f dt u]. simpl in *. subst d.
  unfold restoreOrCreateWindow_resume, activation_calls.
  destruct m, v; unfold_host; simpl;
    repeat (first [ rewrite Hw
                  | rewrite list_lookup_insert_eq by (rewrite ?length_insert; done) ];
            simpl);
    host_norm; rewrite ?list_insert_insert_eq, <- ?app_assoc; simpl;
    (eexists; split; [reflexivity|]);
    repeat split; try done; intros; simplify_eq/=; done.
Qed.

Lemma resume_front s w win :
  windows s !! w = Some win → win_destroyed win = false →
  let r := restoreOrCreateWindow_resume w s in
  r.2 = Ok tt ∧ front r.1 w ∧ calls r.1 = calls s ++ activation_calls w win ∧
  loads r.1 = loads s.
Proof.
  intros Hw Hd. destruct (resume_spec s w win Hw Hd) as
    (win' & Hr & Hd' & Hm' & Hv' & Hf' & _).
  simpl. rewrite Hr. simpl. split; [done|]. split; [|done].
  exists win'. simpl. rewrite list_lookup_insert_eq by by eapply lookup_lt_Some. done.
Qed.

Lemma loaded_spec env s k w :
  loads s !! k = Some w →
  dispatch env (Loaded k) s =
    restoreOrCreateWindow_resume w (set_loads (delete k (loads s)) s).
Proof. intros Hk. unfold dispatch. unfold bind at 1, gets. by rewrite Hk. Qed.

(** With its window destroyed, the rest of the exported function throws at
    its first call. *)
Lemma resume_destroyed s w :
  ¬ is_live s w → restoreOrCreateWindow_resume w s = (s, Throw destroyed_error).
Proof.
  intros Hn. unfold restoreOrCreateWindow_resume. unfold_host. simpl.
  destruct (windows s !! w) as [win|] eqn:Hw; [|done].
  destruct (win_destroyed win) eqn:Hd; [done|].
  destruct Hn. by exists win.
Qed.

(** C8: when a call of the exported function returns, its window is not
    minimized, is visible and is focused.  With a window found the call
    returns in the same turn; with none found it constructs one, awaits the
    load, and returns in the turn the load settles, provided the window is
    still there.  In both cases the calls made are [restore] if the window
    was minimized, [show] if it was not visible, and [focus] last. *)
Theorem activate_shows_and_focuses env s :
  match find_not_destroyed (windows s) with
  | Some w => returns_front env Activate s w
  | None =>
      let w := length (windows s) in
      let s1 := step env Activate s in
      loads s1 = loads s ++ [w] ∧ is_live s1 w ∧
      ∀ s2 k, loads s2 !! k = Some w → is_live s2 w →
              returns_front env (Loaded k) s2 w
  end.
Proof.
  destruct (find_not_destroyed (windows s)) as [w|] eqn:Hf.
  - destruct (find_not_destroyed_Some _ _ Hf) as (win & Hw & Hd).
    unfold returns_front, step. rewrite (activate_found _ _ _ Hf).
    destruct (resume_front s w win Hw Hd) as (Hok & Hfront & Hcalls & _).
    split; [done|]. split; [done|]. by exists win.
  - simpl. unfold step at 1 2. rewrite (activate_created _ _ Hf), createWindow_spec.
    simpl. split; [done|]. split.
    + eexists. simpl. by rewrite list_lookup_middle.
    + intros s2 k Hk (win & Hw & Hd).
      unfold returns_front, step. rewrite (loaded_spec _ _ _ _ Hk).
      destruct (resume_front (set_loads (delete k (loads s2)) s2)
                  (length (windows s)) win Hw Hd) as (Hok & Hfront & Hcalls & _).
      split; [done|]. split; [done|]. by exists win.
Qed.

(** C9: on a window that is found visible, focused and not minimized, the
    exported function calls [focus] and nothing else, neither [restore] nor
    [show], and the state of every window stays what it was, however often it
    is called. *)
Theorem activate_idempotent env s w win n :
  find_not_destroyed (windows s) = Some w → windows s !! w = Some win →
  win_minimized win = false → win_visible win = true → win_focused win = true →
  dispatch env Activate s = (log (CFocus w) s, Ok tt) ∧
  windows (run env (repeat Activate n) s) = windows s ∧
  calls (run env (repeat Activate n) s) = calls s ++ repeat (CFocus w) n.
Proof.
  intros Hf Hw Hm Hv Hfo.
  assert (∀ s, find_not_destroyed (windows s) = Some w → windows s !! w = Some win →
               dispatch env Activate s = (log (CFocus w) s, Ok tt)) as Hone.
  { clear s Hf Hw. intros s Hf Hw.
    destruct (find_not_destroyed_Some _ _ Hf) as (win0 & Hw0 & Hd).
    assert (win0 = win) as -> by congruence.
    rewrite (activate_found _ _ _ Hf).
    destruct (resume_spec s w win Hw Hd) as (win' & Hr & _ & _ & _ & _ & Hsame).
    rewrite Hr, (Hsame Hm Hv Hfo), list_insert_id by done.
    unfold activation_calls. by rewrite Hm, Hv. }
  split; [by apply Hone|].
  revert s Hf Hw. induction n as [|n IH]; intros s Hf Hw; simpl.
  - by rewrite app_nil_r.
  - unfold step. rewrite (Hone s Hf Hw). simpl.
    destruct (IH (log (CFocus w) s) Hf Hw) as [-> ->]. simpl.
    by rewrite <- app_assoc.
Qed.

(** ** Forwarding the container-stopped event *)

(** One emission on a well-formed host: the listeners run oldest first, so
    the emission is decided by the oldest window. *)
Lemma container_stopped_round env s event param :
  wf s →
  dispatch env (Ipc "container-stopped-event" event param) s =
    match destroyed_flags s with
    | [] => (s, Ok tt)
    | true :: _ => (s, Throw destroyed_error)
    | false :: _ => (log (CSend 0 "container-stopped-event" [event]) s, Ok tt)
    end.
Proof.
  intros Hwf. unfold dispatch. unfold bind at 1, gets.
  rewrite (wf_ipc_listeners _ _ Hwf). unfold channel_listeners. simpl.
  destruct Hwf as [_ Hstale]. unfold destroyed_flags in *.
  destruct (windows s) as [|win ws] eqn:Hws; [done|]. simpl.
  unfold bind at 1. unfold webContents_send, bind at 1, use, bind at 1, gets.
  rewrite Hws. simpl.
  destruct (win_destroyed win) eqn:Hd; [done|]. simpl.
  destruct ws as [|win' ws]; [done|].
  specialize (Hstale 0). simpl in Hstale. rewrite Hd in Hstale.
  assert (Some false = Some true) by (apply Hstale; lia). done.
Qed.


(** ** Dialog requests and their responses *)

Ltac listener_step :=
  lazymatch goal with
  | |- preserves _ (window_listener _ ?l) => destruct l; simpl
  | |- preserves _ (ipc_listener _ _ ?l) => destruct l; simpl; unfold required
  | |- preserves _ (app_listener ?l) => destruct l; simpl
  | |- preserves _ (timer_callback ?cb) => destruct cb; simpl
  | |- preserves _ (restoreOrCreateWindow_resume _) =>
      unfold restoreOrCreateWindow_resume
  | |- preserves _ (dialog_resume _ _) => unfold dialog_resume
  end.

(** Solves [preserves (keeps responses) m] for a primitive [m]. *)
Ltac responses_leaf :=
  let s := fresh "s" in
  intros s; unfold keeps, responses; unfold_host; simpl;
  repeat case_match; simplify_eq/=; try done;
  unfold log, set_windows, set_dock, set_defaultPrevented, set_dialogs; simpl;
  rewrite ?omap_app; simpl; rewrite ?app_nil_r; done.

Ltac observe := pres_with ltac:(first [ listener_step | solve [leaf] | solve [responses_leaf] ]).

Section dialogs.
Variable env : Env.

Lemma resume_keeps_dialogs w : preserves (keeps dialogs) (restoreOrCreateWindow_resume w).
Proof. observe. Qed.

Lemma resume_keeps_responses w :
  preserves (keeps responses) (restoreOrCreateWindow_resume w).
Proof. observe. Qed.

Lemma dispatch_keeps_dialogs e :
  match e with
  | Activate | Ipc _ _ _ | DialogClosed _ _ | DialogFailed _ => False
  | _ => True
  end → preserves (keeps dialogs) (dispatch env e).
Proof.
  destruct e; try done; intros _;
    unfold dispatch, emit_on_window; observe.
Qed.

Lemma dispatch_keeps_responses e :
  match e with
  | Activate | DialogClosed _ _ => False
  | _ => True
  end → preserves (keeps responses) (dispatch env e).
Proof.
  destruct e; try done; intros _;
    unfold dispatch, emit_on_window; observe.
Qed.
End dialogs.

Section requests.
Variable env : Env.

Lemma emit_keeps_dialogs event param ws s :
  dialogs (emit (ipc_listener event param) (ForwardContainerStopped <$> ws) s).1
    = dialogs s.
Proof.
  apply (preserves_emit_Forall (R := keeps dialogs)).
  apply Forall_fmap, Forall_forall. intros w _. simpl. leaf.
Qed.

Lemma emit_open event p props (l : WinId → IpcListener) ws s :
  (∀ w, ipc_listener event (Some p) (l w) =
          async (showOpenDialog w props (message p) w p)) →
  dialogs (emit (ipc_listener event (Some p)) (l <$> ws) s).1 =
    dialogs s ++ ((λ w, mkDialog w props (message p) w p) <$> ws).
Proof.
  intros Hl. revert s. induction ws as [|w ws IH]; intros s; simpl.
  - by rewrite app_nil_r.
  - unfold bind. rewrite Hl. unfold async at 1. simpl.
    rewrite IH. simpl. by rewrite <- app_assoc.
Qed.

Lemma emit_no_param event (l : WinId → IpcListener) ws s :
  (∀ w, ipc_listener event None (l w) = async (throw "TypeError: Cannot read properties of undefined")) →
  emit (ipc_listener event None) (l <$> ws) s = (s, Ok tt).
Proof.
  intros Hl. induction ws as [|w ws IH]; simpl; [done|].
  unfold bind. rewrite Hl. unfold async at 1. simpl. exact IH.
Qed.

(** A message on the bus opens one picker for every listener of its channel. *)
Lemma ipc_dialogs s channel event param :
  wf s →
  dialogs (step env (Ipc channel event param) s) =
    dialogs s ++ opened channel param (seq 0 (length (windows s))).
Proof.
  intros Hwf. unfold step, dispatch. unfold bind at 1, gets.
  rewrite (wf_ipc_listeners _ _ Hwf). unfold channel_listeners, opened.
  destruct (String.eqb channel "container-stopped-event").
  { rewrite emit_keeps_dialogs. destruct param; by rewrite app_nil_r. }
  destruct (String.eqb channel "dialog:openFile").
  { destruct param as [p|].
    - by apply emit_open.
    - rewrite emit_no_param by done. simpl. by rewrite app_nil_r. }
  destruct (String.eqb channel "dialog:openFolder").
  { destruct param as [p|].
    - by apply emit_open.
    - rewrite emit_no_param by done. simpl. by rewrite app_nil_r. }
  simpl. destruct param; by rewrite app_nil_r.
Qed.

(** A picker closing: the listener that opened it answers on its own
    window, or throws when that window is destroyed. *)
Lemma dialog_closed_spec s k pd response :
  dialogs s !! k = Some pd →
  dispatch env (DialogClosed k response) s =
    if decide (destroyed_flags s !! dlg_window pd = Some false) then
      (log (CSend (dlg_window pd) response_channel
              [VStr (dialogId (dlg_param pd)); value_of_return response])
           (set_dialogs (delete k (dialogs s)) s), Ok tt)
    else (set_dialogs (delete k (dialogs s)) s, Throw destroyed_error).
Proof.
  intros Hk. unfold dispatch, dialog_resume. unfold_host. simpl. rewrite Hk. simpl.
  unfold destroyed_flags. rewrite list_lookup_fmap.
  destruct (windows s !! dlg_window pd) as [win|]; simpl; [|done].
  destruct (win_destroyed win); simpl; done.
Qed.

Lemma dialog_closed_none s k response :
  dialogs s !! k = None → dispatch env (DialogClosed k response) s = (s, Ok tt).
Proof. intros Hk. unfold dispatch. unfold_host. simpl. by rewrite Hk. Qed.
End requests.

(** ** Counting *)

Lemma filter_delete_length {A} (P : A → Prop) `{!∀ x, Decision (P x)}
    (l : list A) k x :
  l !! k = Some x →
  length (filter P (delete k l)) + (if decide (P x) then 1 else 0)
    = length (filter P l).
Proof.
  revert k. induction l as [|a l IH]; intros k Hk; [done|].
  destruct k as [|k]; simpl in *.
  - simplify_eq. rewrite filter_cons. destruct (decide (P x)); simpl; lia.
  - rewrite !filter_cons. specialize (IH k Hk).
    destruct (decide (P a)); simpl; lia.
Qed.

Lemma count_live_seq (pre l : list bool) :
  length (filter (λ i, (pre ++ l) !! i = Some false) (seq (length pre) (length l)))
    = length (filter (λ b, b = false) l).
Proof.
  revert pre. induction l as [|b l IH]; intros pre; [done|].
  simpl. rewrite !filter_cons.
  rewrite list_lookup_middle by done.
  specialize (IH (pre ++ [b])).
  rewrite <- app_assoc, length_app in IH. simpl in IH.
  rewrite Nat.add_1_r in IH.
  destruct b; repeat case_decide; simplify_eq; simpl; by rewrite IH.
Qed.

Lemma live_handles s :
  length (filter (λ w, destroyed_flags s !! w = Some false)
                 (seq 0 (length (windows s))))
    = length (live_windows s).
Proof.
  rewrite live_windows_flags, <- flags_length.
  apply (count_live_seq [] (destroyed_flags s)).
Qed.

Lemma opened_waiting s d channel event param :
  let P pd := dialogId (dlg_param pd) = d ∧
              destroyed_flags s !! dlg_window pd = Some false in
  length (filter P (opened channel param (seq 0 (length (windows s)))))
    = if is_request d (Ipc channel event param) then length (live_windows s) else 0.
Proof.
  simpl. unfold opened, is_request. destruct param as [p|]; [|done].
  assert (∀ props,
    length (filter (λ pd, dialogId (dlg_param pd) = d ∧
                          destroyed_flags s !! dlg_window pd = Some false)
              ((λ w, mkDialog w props (message p) w p) <$>
                 seq 0 (length (windows s))))
    = if String.eqb (dialogId p) d then length (live_windows s) else 0) as Hcount.
  { intros props. rewrite <- live_handles.
    induction (seq 0 (length (windows s))) as [|w ws IH].
    - by destruct (String.eqb _ _).
    - rewrite fmap_cons, !filter_cons. simpl.
      destruct (String.eqb_spec (dialogId p) d) as [Heq|Hne].
      + destruct (decide (destroyed_flags s !! w = Some false)).
        * rewrite decide_True by done. simpl. by rewrite IH.
        * rewrite decide_False by tauto. done.
      + rewrite decide_False by tauto. done. }
  destruct (String.eqb_spec channel "container-stopped-event") as [->|H1]; [done|].
  destruct (String.eqb channel "dialog:openFile"); simpl; [apply Hcount|].
  destruct (String.eqb channel "dialog:openFolder"); simpl; [apply Hcount|done].
Qed.

Lemma balance_same d s s' :
  destroyed_flags s' = destroyed_flags s → dialogs s' = dialogs s →
  responses s' = responses s → balance d s' = balance d s.
Proof.
  intros Hf Hd Hr. unfold balance, waiting, responses_to. by rewrite Hf, Hd, Hr.
Qed.

Lemma is_live_counted s w : is_live s w → 1 ≤ length (live_windows s).
Proof.
  intros (win & Hw & Hd).
  assert (win ∈ live_windows s) as Hin.
  { apply list_elem_of_filter. split; [done|]. by eapply list_elem_of_lookup_2. }
  destruct (live_windows s); [by apply elem_of_nil in Hin | simpl; lia].
Qed.

Section balance.
Variable env : Env.

Lemma step_balance s e d :
  wf s → length (live_windows s) = 1 → answerable e = true →
  destroyed_flags (step env e s) = destroyed_flags s ∧
  balance d (step env e s) = balance d s + (if is_request d e then 1 else 0).
Proof.
  intros Hwf Hlive Hans.
  assert (∀ e', may_destroy e' = false →
            match e' with
            | Activate | Ipc _ _ _ | DialogClosed _ _ | DialogFailed _ => False
            | _ => True
            end →
            destroyed_flags (step env e' s) = destroyed_flags s ∧
            balance d (step env e' s) = balance d s + 0) as Hquiet.
  { intros e' Hmd He'. split; [by apply (dispatch_keeps_flags env e' Hmd s)|].
    rewrite Nat.add_0_r. apply balance_same.
    - by apply (dispatch_keeps_flags env e' Hmd s).
    - by apply (dispatch_keeps_dialogs env e' He' s).
    - apply (dispatch_keeps_responses env e'); by destruct e'. }
  destruct e as [|k|k|w|w| |channel event param|k response|k|k];
    try discriminate Hans; try (by apply Hquiet).
  - (* Activate *)
    destruct (find_not_destroyed (windows s)) as [w|] eqn:Hf.
    + unfold step. rewrite (activate_found _ _ _ Hf). simpl.
      split; [apply (resume_keeps_flags w s)|].
      rewrite Nat.add_0_r. apply balance_same.
      * apply (resume_keeps_flags w s).
      * apply (resume_keeps_dialogs w s).
      * apply (resume_keeps_responses w s).
    + apply none_found_none_live in Hf. by rewrite Hf in Hlive.
  - (* CloseRequest *)
    pose proof (close_request_keeps_flags env s w Hwf) as Hflags.
    split; [done|]. rewrite Nat.add_0_r. apply balance_same; [done|..].
    + by apply (dispatch_keeps_dialogs env (CloseRequest w) I s).
    + by apply (dispatch_keeps_responses env (CloseRequest w) I s).
  - (* Ipc *)
    pose proof (dispatch_keeps_flags env (Ipc channel event param) eq_refl s)
      as Hflags.
    pose proof (dispatch_keeps_responses env (Ipc channel event param) I s)
      as Hresp.
    unfold keeps in Hflags, Hresp. fold (step env (Ipc channel event param) s) in *.
    split; [done|]. unfold balance, waiting, responses_to.
    rewrite Hflags, Hresp, (ipc_dialogs _ _ _ _ _ Hwf), filter_app, length_app.
    rewrite (opened_waiting s d channel event param), Hlive.
    destruct (is_request d _); lia.
  - (* DialogClosed *)
    unfold step. destruct (dialogs s !! k) as [pd|] eqn:Hk.
    + rewrite (dialog_closed_spec _ _ _ _ _ Hk). simpl.
      pose proof (filter_delete_length
        (λ pd, dialogId (dlg_param pd) = d ∧
               destroyed_flags s !! dlg_window pd = Some false)
        (dialogs s) k pd Hk) as Hdel.
      destruct (decide (destroyed_flags s !! dlg_window pd = Some false))
        as [Hl|Hl]; simpl.
      * split; [done|]. unfold balance, waiting, responses_to, responses.
        simpl. unfold destroyed_flags in *. simpl.
        rewrite omap_app, filter_app, length_app. simpl.
        rewrite filter_cons, filter_nil.
        change (carries d (dlg_window pd,
                  [VStr (dialogId (dlg_param pd)); value_of_return response]))
          with (String.eqb (dialogId (dlg_param pd)) d).
        destruct (String.eqb_spec (dialogId (dlg_param pd)) d) as [Heq|Hne].
        -- rewrite decide_True in Hdel by (split; [exact Heq | exact Hl]).
           rewrite decide_True by done. simpl. lia.
        -- rewrite decide_False in Hdel by tauto. rewrite decide_False by done.
           simpl. lia.
      * split; [done|]. unfold balance, waiting, responses_to, responses.
        simpl. unfold destroyed_flags in *. simpl.
        rewrite decide_False in Hdel by tauto. lia.
    + rewrite (dialog_closed_none _ _ _ _ Hk). simpl. split; [done|lia].
Qed.

Lemma run_balance es s d :
  wf s → length (live_windows s) = 1 → Forall (λ e, answerable e = true) es →
  balance d (run env es s) =
    balance d s + length (filter (λ e, is_request d e = true) es).
Proof.
  revert s. induction es as [|e es IH]; intros s Hwf Hlive Hes; simpl.
  - lia.
  - inversion Hes as [|? ? He Hrest]; subst.
    destruct (step_balance s e d Hwf Hlive He) as [Hflags Hbal].
    rewrite IH; [| by apply step_wf | | done].
    + rewrite Hbal, filter_cons.
      destruct (is_request d e); [rewrite decide_True by done|
                                  rewrite decide_False by done]; simpl; lia.
    + by rewrite live_windows_flags, Hflags, <- live_windows_flags.
Qed.
End balance.

(** C3: on a reachable host that has its window, with no picker on screen,
    let the loop take any turns in which the application does not quit and
    no picker fails: requests on the two dialog channels, pickers closing in
    any order, and whatever else.  Once no picker is left on screen, the
    responses sent with first argument [d] are as many as the requests made
    with [dialogId] [d]: one for a request whose [dialogId] no other request
    carries, such as each of two concurrent requests ['A'] and ['B']. *)
Theorem dialog_correlation env es0 es d :
  let s := run env es0 init in
  (∃ w, is_live s w) →
  Forall (λ e, answerable e = true) es →
  dialogs s = [] → dialogs (run env es s) = [] →
  length (responses_to d (run env es s)) =
    length (responses_to d s) + length (filter (λ e, is_request d e = true) es).
Proof.
  simpl. set (s := run env es0 init). intros [w Hw] Hes Hd Hd'.
  assert (wf s) as Hwf by apply run_wf.
  assert (length (live_windows s) = 1) as Hlive.
  { pose proof (is_live_counted _ _ Hw).
    pose proof (run_live env es0 init (Nat.le_0_l 1)). fold s in H0. lia. }
  pose proof (run_balance env es s d Hwf Hlive Hes) as Hbal.
  unfold balance, waiting in Hbal. rewrite Hd, Hd' in Hbal.
  rewrite !filter_nil in Hbal. simpl in Hbal. lia.
Qed.

(** ** Listeners pile up *)

Lemma listeners_never_removed env s e :
  ipcMain s `prefix_of` ipcMain (step env e s).
Proof.
  unfold step. destruct (activate_or_not e) as [->|Hne].
  - destruct (find_not_destroyed (windows s)) as [w|] eqn:Hf.
    + rewrite (activate_found _ _ _ Hf).
      pose proof (resume_keeps_registry w s) as Hk.
      unfold keeps, registry in Hk. injection Hk as -> _ _. done.
    + rewrite (activate_created _ _ Hf), createWindow_spec. simpl.
      by apply prefix_app_r.
  - pose proof (dispatch_keeps_registry env e Hne s) as Hk.
    unfold keeps, registry in Hk. injection Hk as -> _ _. done.
Qed.

(** C10, as amended: every construction adds its three listeners to the bus
    and none is ever removed, so after [n] constructions each of the three
    channels has [n] listeners, the [k]-th closing over the [k]-th window.
    One dialog request runs all [n] of its channel and opens [n] pickers;
    when a picker closes, its listener answers if its own window is not
    destroyed and throws otherwise, which makes one response for every
    surviving construction.  An emission of ['container-stopped-event'] runs
    the listeners oldest first and ends at the first that throws: it forwards
    nothing as soon as the oldest window is destroyed. *)
Theorem listener_accumulation env es event :
  let s := run env es init in
  let n := length (windows s) in
  (listeners "container-stopped-event" (ipcMain s)
     = ForwardContainerStopped <$> seq 0 n ∧
   listeners "dialog:openFile" (ipcMain s) = OpenFile <$> seq 0 n ∧
   listeners "dialog:openFolder" (ipcMain s) = OpenFolder <$> seq 0 n) ∧
  (∀ e, ipcMain s `prefix_of` ipcMain (step env e s)) ∧
  (∀ p,
     dialogs (step env (Ipc "dialog:openFile" event (Some p)) s) =
       dialogs s ++ ((λ w, mkDialog w [openFile] (message p) w p) <$> seq 0 n) ∧
     dialogs (step env (Ipc "dialog:openFolder" event (Some p)) s) =
       dialogs s ++ ((λ w, mkDialog w [openDirectory] (message p) w p) <$> seq 0 n)) ∧
  (∀ k response,
     dispatch env (DialogClosed k response) s =
       match dialogs s !! k with
       | Some pd =>
           if decide (destroyed_flags s !! dlg_window pd = Some false) then
             (log (CSend (dlg_window pd) response_channel
                     [VStr (dialogId (dlg_param pd)); value_of_return response])
                  (set_dialogs (delete k (dialogs s)) s), Ok tt)
           else (set_dialogs (delete k (dialogs s)) s, Throw destroyed_error)
       | None => (s, Ok tt)
       end) ∧
  (∀ param,
     dispatch env (Ipc "container-stopped-event" event param) s =
       match destroyed_flags s with
       | [] => (s, Ok tt)
       | true :: _ => (s, Throw destroyed_error)
       | false :: _ => (log (CSend 0 "container-stopped-event" [event]) s, Ok tt)
       end).
Proof.
  cbv zeta. set (s := run env es init).
  assert (wf s) as Hwf by apply run_wf.
  split; [|split; [|split; [|split]]].
  - by rewrite !(wf_ipc_listeners _ _ Hwf).
  - intros e. apply listeners_never_removed.
  - intros p. by rewrite !(ipc_dialogs _ _ _ _ _ Hwf).
  - intros k response. destruct (dialogs s !! k) as [pd|] eqn:Hk.
    + exact (dialog_closed_spec env s k pd response Hk).
    + exact (dialog_closed_none env s k response Hk).
  - intros param. exact (container_stopped_round env s event param Hwf).
Qed.

(** C10, as stated, fails: after a window was destroyed and another one
    constructed, the bus has two listeners for ['container-stopped-event']
    and one window survives, whose listener would forward the value if it
    were called; yet an emission forwards nothing: the first listener throws
    on its destroyed window and the second never runs. *)
Lemma stale_listener_ends_round :
  let s := run linux_env [Activate; Loaded 0; BeforeQuit; Activate; Loaded 0] init in
  length (windows s) = 2 ∧
  length (live_windows s) = 1 ∧
  listeners "container-stopped-event" (ipcMain s)
    = [ForwardContainerStopped 0; ForwardContainerStopped 1] ∧
  ipc_listener (VStr "c1") None (ForwardContainerStopped 1) s
    = (log (CSend 1 "container-stopped-event" [VStr "c1"]) s, Ok tt) ∧
  dispatch linux_env (Ipc "container-stopped-event" (VStr "c1") None) s
    = (s, Throw destroyed_error).
Proof. vm_compute. done. Qed.

(** * The properties on sample runs *)

Example two_requests_answered :
  let s := run linux_env ([Activate; Loaded 0] ++ two_requests) init in
  responses s =
    [(0, [VStr "B"; value_of_return (mkReturn false ["/home/user/project"])]);
     (0, [VStr "A"; value_of_return (mkReturn true [])])].
Proof. vm_compute. reflexivity. Qed.

Example two_requests_answered_in_order :
  let s := run linux_env ([Activate; Loaded 0] ++ two_requests_in_order) init in
  responses s =
    [(0, [VStr "A"; value_of_return (mkReturn true [])]);
     (0, [VStr "B"; value_of_return (mkReturn false ["/home/user/project"])])].
Proof. vm_compute. reflexivity. Qed.

(** The scenario of the specification: no window, one call, the window
    becomes ready, one request, one response. *)
Example end_to_end :
  let s0 := run linux_env [Activate] init in
  let s := run linux_env
             [ReadyToShow 0; Loaded 0;
              Ipc "dialog:openFile" VUndefined (Some (mkParam "x1" "pick"));
              DialogClosed 0 (mkReturn false ["/tmp/a"])] s0 in
  win_visible <$> windows s0 = [false] ∧
  length (windows s) = 1 ∧ front s 0 ∧
  responses s = [(0, [VStr "x1"; value_of_return (mkReturn false ["/tmp/a"])])].
Proof.
  split; [reflexivity|]. split; [reflexivity|]. split; [|vm_compute; reflexivity].
  eexists. split; [vm_compute; reflexivity|]. done.
Qed.

(** What the hypotheses of the correlation theorem keep out: a request whose
    picker is still open when the application quits is never answered, and
    neither is one whose picker fails. *)
Example quit_leaves_request_unanswered :
  let s := run linux_env
             [Activate; Loaded 0;
              Ipc "dialog:openFile" VUndefined (Some (mkParam "A" "pick"));
              BeforeQuit] init in
  dispatch linux_env (DialogClosed 0 (mkReturn true [])) s
    = (set_dialogs [] s, Throw destroyed_error) ∧
  responses s = [].
Proof. vm_compute. done. Qed.

Example failed_picker_leaves_request_unanswered :
  let s := run linux_env
             [Activate; Loaded 0;
              Ipc "dialog:openFile" VUndefined (Some (mkParam "A" "pick"));
              DialogFailed 0] init in
  dialogs s = [] ∧ responses s = [].
Proof. vm_compute. done. Qed.

(** The host's default action is real: a close request nobody cancels
    destroys the window. *)
Example close_default_action :
  win_destroyed <$> windows (step linux_env (CloseRequest 0) bare_host) = [true].
Proof. reflexivity. Qed.

(** A load that settles after the window was destroyed makes the call throw
    instead of return. *)
Example activate_rejects_after_quit :
  dispatch linux_env (Loaded 0) (run linux_env [Activate; BeforeQuit] init)
    = (set_loads [] (run linux_env [Activate; BeforeQuit] init),
       Throw destroyed_error).
Proof. vm_compute. reflexivity. Qed.

(** C3 on the two concurrent requests, the later one answered first. *)
Lemma dialog_correlation_witness :
  let s := run linux_env [Activate; Loaded 0] init in
  length (responses_to "A" (run linux_env two_requests s)) = 1 ∧
  length (responses_to "B" (run linux_env two_requests s)) = 1.
Proof.
  assert (∃ w, is_live (run linux_env [Activate; Loaded 0] init) w) as Hlive.
  { exists 0. eexists. split; [vm_compute; reflexivity | reflexivity]. }
  assert (Forall (λ e, answerable e = true) two_requests) as Hans
    by repeat constructor.
  split.
  - exact (dialog_correlation linux_env [Activate; Loaded 0] two_requests "A"
             Hlive Hans eq_refl eq_refl).
  - exact (dialog_correlation linux_env [Activate; Loaded 0] two_requests "B"
             Hlive Hans eq_refl eq_refl).
Defined.

(** C2 on the host after one call of the exported function. *)
Lemma close_never_destroys_witness :
  let s := run linux_env [Activate] init in
  is_live (step linux_env (CloseRequest 0) s) 0 ∧
  ¬ is_live (step linux_env BeforeQuit s) 0.
Proof.
  assert (is_live (run linux_env [Activate] init) 0) as Hlive.
  { eexists. split; [vm_compute; reflexivity | reflexivity]. }
  pose proof (close_never_destroys linux_env [Activate] 0 Hlive) as H.
  exact (conj (proj1 (proj1 H)) (proj2 (proj2 H))).
Defined.



(** C5 on the development build. *)
Lemma content_source_witness : pageUrl mac_dev_env = "http://localhost:3000/".
Proof.
  exact (proj1 (content_source mac_dev_env init) "http://localhost:3000/"
           eq_refl eq_refl).
Defined.

(** C7 on Linux, on a window that was shown. *)
Lemma close_request_visibility_witness :
  let s := run linux_env [Activate; ReadyToShow 0] init in
  calls (step linux_env (CloseRequest 0) s) = calls s ++ [CPreventDefault; CMinimize 0].
Proof.
  pose proof (close_request_visibility linux_env [Activate; ReadyToShow 0] 0) as H.
  cbv zeta in H. edestruct H as (_ & _ & Hcalls).
  - vm_compute. reflexivity.
  - reflexivity.
  - exact Hcalls.
Defined.

(** C8 on the first call: it returns when the load settles. *)
Lemma activate_shows_and_focuses_witness :
  returns_front linux_env (Loaded 0) (step linux_env Activate init) 0.
Proof.
  assert (is_live (step linux_env Activate init) 0) as Hlive.
  { eexists. split; [vm_compute; reflexivity | reflexivity]. }
  exact (proj2 (proj2 (activate_shows_and_focuses linux_env init))
           (step linux_env Activate init) 0 eq_refl Hlive).
Defined.

(** C9 on three more calls after the first one returned. *)
Lemma activate_idempotent_witness :
  let s := run linux_env [Activate; Loaded 0] init in
  windows (run linux_env (repeat Activate 3) s) = windows s.
Proof.
  pose proof (activate_idempotent linux_env
                (run linux_env [Activate; Loaded 0] init) 0) as H.
  edestruct H as (_ & Hwin & _); [..|exact Hwin].
  - reflexivity.
  - vm_compute. reflexivity.
  - reflexivity.
  - reflexivity.
  - reflexivity.
Defined.

(** * Further properties of the controller *)

(** ** Induction over the turns of the loop *)

(** A property of hosts holds after every run if it holds at the start and
    survives each of the three kinds of turn: the exported function
    constructing a window, the exported function going on with the window it
    has, and any other turn. *)
Lemma run_invariant env (P : Host → Prop) :
  (∀ s, wf s → find_not_destroyed (windows s) = None → P s →
        P (createWindow env s).1) →
  (∀ s w, wf s → P s → P (restoreOrCreateWindow_resume w s).1) →
  (∀ s e, wf s → e ≠ Activate → P s → P (step env e s)) →
  ∀ es s, wf s → P s → P (run env es s).
Proof.
  intros Hcreate Hresume Hother es.
  induction es as [|e es IH]; intros s Hwf HP; simpl; [done|].
  apply IH; [by apply step_wf|].
  unfold step. destruct (activate_or_not e) as [->|Hne].
  - destruct (find_not_destroyed (windows s)) as [w|] eqn:Hf.
    + rewrite (activate_found _ _ _ Hf). by apply Hresume.
    + rewrite (activate_created _ _ Hf). simpl. by apply Hcreate.
  - by apply Hother.
Qed.

(** The same for an observation that no turn changes. *)
Lemma run_keeps env {X} (f : Host → X) :
  (∀ s, f (createWindow env s).1 = f s) →
  (∀ w, preserves (keeps f) (restoreOrCreateWindow_resume w)) →
  (∀ e, e ≠ Activate → preserves (keeps f) (dispatch env e)) →
  ∀ es, f (run env es init) = f init.
Proof.
  intros Hcreate Hresume Hother es.
  apply (run_invariant env (λ s, f s = f init)); [..|apply init_wf|done].
  - intros s _ _ <-. apply Hcreate.
  - intros s w _ <-. apply Hresume.
  - intros s e _ Hne <-. by apply Hother.
Qed.

(** Solves [preserves (keeps f) m] for a primitive [m] and an observation
    [f] that picks calls of one kind. *)
Ltac calls_leaf :=
  let s := fresh "s" in
  intros s; unfold keeps, dock_calls, devtools_calls, constructions;
  unfold_host; simpl;
  repeat case_match; simplify_eq/=; try done;
  unfold log, set_windows, set_dock, set_defaultPrevented, set_dialogs,
    set_loads, set_timers; simpl;
  rewrite ?omap_app; simpl; rewrite ?app_nil_r; done.

(** ** The window that is not destroyed *)

Lemma wf_live_youngest s w :
  wf s → is_live s w → S w = length (windows s).
Proof.
  intros [_ Hstale] Hlive. pose proof Hlive as (win & Hw & _).
  apply lookup_lt_Some in Hw. apply is_live_flags in Hlive.
  destruct (decide (S w < length (windows s))) as [Hlt|]; [|lia].
  specialize (Hstale w Hlt). congruence.
Qed.

Lemma wf_find_live s w :
  wf s → is_live s w → find_not_destroyed (windows s) = Some w.
Proof.
  intros Hwf Hlive.
  destruct (find_not_destroyed (windows s)) as [w'|] eqn:Hf.
  - apply find_not_destroyed_Some in Hf.
    pose proof (wf_live_youngest s w Hwf Hlive).
    pose proof (wf_live_youngest s w' Hwf Hf). f_equal. lia.
  - apply none_found_none_live in Hf.
    pose proof (is_live_counted _ _ Hlive) as Hc. rewrite Hf in Hc.
    simpl in Hc. lia.
Qed.

(** X1: on every host the loop reaches, a window that is not destroyed is
    the one constructed last, every older window is destroyed, and it is the
    window the search of the exported function finds. *)
Theorem live_window_is_youngest env es w :
  let s := run env es init in
  is_live s w →
  S w = length (windows s) ∧
  (∀ w', w' < w → destroyed_flags s !! w' = Some true) ∧
  find_not_destroyed (windows s) = Some w.
Proof.
  cbv zeta. set (s := run env es init). intros Hlive.
  assert (wf s) as Hwf by apply run_wf.
  pose proof (wf_live_youngest s w Hwf Hlive) as Hn.
  split; [done|]. split; [|by apply wf_find_live].
  intros w' Hlt. apply (wf_stale s Hwf). lia.
Qed.

(** ** Calls behind a platform or build switch *)

Section guarded.
Variable env : Env.

Lemma window_listener_off_mac {X} (f : Host → X) l :
  isMac (platform env) = false →
  (∀ m, preserves (keeps f) (show_window m)) →
  (∀ m, preserves (keeps f) (hide_window m)) →
  (∀ m, preserves (keeps f) (minimize_window m)) →
  (∀ m, preserves (keeps f) (webContents_openDevTools m)) →
  preserves (keeps f) preventDefault →
  preserves (keeps f) (window_listener env l).
Proof.
  intros Hmac Hshow Hhide Hmin Hdev Hprev. destruct l; simpl; rewrite Hmac; simpl.
  - apply preserves_bind; [apply Hshow | intros _].
    apply preserves_bind; [apply preserves_ret | intros _].
    apply preserves_when, Hdev.
  - apply preserves_bind; [apply Hprev | intros _].
    destruct (isLinux (platform env)); [apply Hmin|].
    apply preserves_bind; [apply Hhide | intros _; apply preserves_ret].
Qed.

Lemma dispatch_off_mac_dock e :
  isMac (platform env) = false → e ≠ Activate →
  preserves (keeps dock) (dispatch env e).
Proof.
  intros Hmac. destruct e; [done|..]; intros _;
    unfold dispatch, emit_on_window;
    pres_with ltac:(first
      [ apply window_listener_off_mac; [exact Hmac|intros ?..|]
      | listener_step | solve [leaf] ]).
Qed.

Lemma dispatch_off_mac_dock_calls e :
  isMac (platform env) = false → e ≠ Activate →
  preserves (keeps dock_calls) (dispatch env e).
Proof.
  intros Hmac. destruct e; [done|..]; intros _;
    unfold dispatch, emit_on_window;
    pres_with ltac:(first
      [ apply window_listener_off_mac; [exact Hmac|intros ?..|]
      | listener_step | solve [calls_leaf] ]).
Qed.

Lemma window_listener_production l :
  DEV env = false → preserves (keeps devtools_calls) (window_listener env l).
Proof.
  intros Hdev. destruct l; simpl; rewrite ?Hdev; simpl; pres_with calls_leaf.
Qed.

Lemma dispatch_production e :
  DEV env = false → e ≠ Activate →
  preserves (keeps devtools_calls) (dispatch env e).
Proof.
  intros Hdev. destruct e; [done|..]; intros _;
    unfold dispatch, emit_on_window;
    pres_with ltac:(first
      [ apply window_listener_production; exact Hdev
      | listener_step | solve [calls_leaf] ]).
Qed.
End guarded.

(** X2: on a platform that is not Mac the dock is never touched: whatever
    the loop does, neither [app.dock.show] nor [app.dock.hide] is called. *)
Theorem dock_untouched_off_mac env es :
  isMac (platform env) = false →
  dock_calls (run env es init) = [] ∧ dock (run env es init) = dock init.
Proof.
  intros Hmac. split.
  - apply (run_keeps env dock_calls).
    + intros s. rewrite createWindow_spec. unfold dock_calls. simpl.
      rewrite omap_app. simpl. by rewrite app_nil_r.
    + intros w. unfold restoreOrCreateWindow_resume. pres_with calls_leaf.
    + intros e. by apply dispatch_off_mac_dock_calls.
  - apply (run_keeps env dock).
    + intros s. by rewrite createWindow_spec.
    + intros w. unfold restoreOrCreateWindow_resume. pres_with leaf.
    + intros e. by apply dispatch_off_mac_dock.
Qed.

(** X3: in a build that is not a development build the developer tools are
    never opened, on any window, whatever the loop does. *)
Theorem devtools_closed_in_production env es :
  DEV env = false →
  devtools_calls (run env es init) = [].
Proof.
  intros Hdev. apply (run_keeps env devtools_calls).
  - intros s. rewrite createWindow_spec. unfold devtools_calls. simpl.
    rewrite omap_app. simpl. by rewrite app_nil_r.
  - intros w. unfold restoreOrCreateWindow_resume. pres_with calls_leaf.
  - intros e. by apply dispatch_production.
Qed.

(** ** Windows are set up once *)

(** Solves [preserves (keeps f) m] for a primitive [m] and an observation
    [f] that reads one field off every window. *)
Ltac windows_leaf :=
  let s := fresh "s" in
  intros s; unfold keeps, blueprints, visible_flags; unfold_host; simpl;
  repeat case_match; simplify_eq/=; try done;
  solve [ eapply fmap_insert_same; [eassumption | done] ].

Section setup.
Variable env : Env.

Lemma dispatch_keeps_constructions e :
  e ≠ Activate → preserves (keeps constructions) (dispatch env e).
Proof.
  destruct e; [done|..]; intros _; unfold dispatch, emit_on_window;
    pres_with ltac:(first [ listener_step | solve [calls_leaf] ]).
Qed.

Lemma dispatch_keeps_blueprints e :
  e ≠ Activate → preserves (keeps blueprints) (dispatch env e).
Proof.
  destruct e; [done|..]; intros _; unfold dispatch, emit_on_window;
    pres_with ltac:(first [ listener_step | solve [windows_leaf] ]).
Qed.

Lemma blueprints_length s s' :
  blueprints s' = blueprints s → length (windows s') = length (windows s).
Proof.
  unfold blueprints. intros H. apply (f_equal length) in H.
  by rewrite !length_fmap in H.
Qed.
End setup.

(** X4: every window is set up exactly once.  After any run the constructor
    calls, the timer calls and the load calls are, window by window, the
    three [createWindow] makes, so no window is ever loaded a second time or
    given a second timer; and every window still has the options it was
    constructed with and the page of the build as what it was told to load. *)
Theorem windows_set_up_once env es :
  let s := run env es init in
  constructions s = seq 0 (length (windows s)) ≫= construction_calls env ∧
  Forall (λ win, blueprint win =
            (browserWindowConstructorOptions env, Some (pageUrl env)))
         (windows s).
Proof.
  cbv zeta.
  assert (∀ s,
    constructions s = seq 0 (length (windows s)) ≫= construction_calls env ∧
    Forall (λ b, b = (browserWindowConstructorOptions env, Some (pageUrl env)))
           (blueprints s) →
    constructions s = seq 0 (length (windows s)) ≫= construction_calls env ∧
    Forall (λ win, blueprint win =
              (browserWindowConstructorOptions env, Some (pageUrl env)))
           (windows s)) as Hfinal.
  { intros s [Hc Hb]. split; [done|]. unfold blueprints in Hb.
    by apply Forall_fmap in Hb. }
  apply Hfinal.
  apply (run_invariant env (λ s,
    constructions s = seq 0 (length (windows s)) ≫= construction_calls env ∧
    Forall (λ b, b = (browserWindowConstructorOptions env, Some (pageUrl env)))
           (blueprints s))).
  - intros s _ _ [Hc Hb]. rewrite createWindow_spec.
    unfold constructions, blueprints in *. simpl. split.
    + rewrite omap_app, Hc, length_app, Nat.add_1_r, seq_S, bind_app. simpl.
      reflexivity.
    + rewrite fmap_app. apply Forall_app. split; [done|]. by constructor.
  - intros s w _ [Hc Hb].
    assert (preserves (keeps constructions) (restoreOrCreateWindow_resume w)) as Hkc
      by (unfold restoreOrCreateWindow_resume; pres_with calls_leaf).
    assert (preserves (keeps blueprints) (restoreOrCreateWindow_resume w)) as Hkb
      by (unfold restoreOrCreateWindow_resume; pres_with windows_leaf).
    specialize (Hkc s). specialize (Hkb s). unfold keeps in Hkc, Hkb.
    by rewrite Hkc, Hkb, (blueprints_length _ _ Hkb).
  - intros s e _ Hne [Hc Hb].
    pose proof (dispatch_keeps_constructions env e Hne s) as Hkc.
    pose proof (dispatch_keeps_blueprints env e Hne s) as Hkb.
    unfold keeps in Hkc, Hkb. unfold step.
    by rewrite Hkc, Hkb, (blueprints_length _ _ Hkb).
  - apply init_wf.
  - split; [done | constructor].
Qed.

(** ** Becoming ready to show *)

Lemma ready_to_show_spec env s w win :
  wf s → windows s !! w = Some win → win_destroyed win = false →
  dispatch env (ReadyToShow w) s = (revealed env w win s, Ok tt).
Proof.
  intros Hwf Hw Hd. pose proof (wf_window_listeners _ _ _ Hwf Hw) as Hl.
  pose proof (lookup_lt_Some _ _ _ Hw) as Hlt.
  clear Hwf. destruct s as [ws im ap ts ds ls dk dp cs].
  destruct win as [o wl d m v f dt u]. simpl in Hw, Hlt, Hd, Hl. subst d wl.
  unfold dispatch, emit_on_window, revealed.
  unfold bind at 1, gets. simpl. rewrite Hw. simpl.
  destruct (isMac (platform env)), (DEV env);
    unfold_host; simpl; rewrite Hw; simpl;
    rewrite ?list_lookup_insert_eq by done; simpl;
    host_norm; rewrite ?list_insert_insert_eq, <- ?app_assoc; reflexivity.
Qed.

(** X5: when a window that is not destroyed becomes ready to show, it is
    shown, which also gives it the focus; the dock icon is shown on Mac and
    left alone elsewhere; the developer tools are opened in a development
    build and only there.  Nothing else is called. *)
Theorem ready_to_show_reveals env es w win :
  let s := run env es init in
  windows s !! w = Some win → win_destroyed win = false →
  let s' := step env (ReadyToShow w) s in
  (dispatch env (ReadyToShow w) s).2 = Ok tt ∧
  windows s' !! w =
    Some (let shown := with_focused true (with_visible true win) in
          if DEV env then with_devTools true shown else shown) ∧
  dock s' = (if isMac (platform env) then true else dock s) ∧
  calls s' = calls s ++ [CShow w] ++
               (if isMac (platform env) then [CDockShow] else []) ++
               (if DEV env then [COpenDevTools w] else []).
Proof.
  cbv zeta. set (s := run env es init). intros Hw Hd.
  assert (wf s) as Hwf by apply run_wf.
  unfold step. rewrite (ready_to_show_spec _ _ _ _ Hwf Hw Hd). unfold revealed.
  apply lookup_lt_Some in Hw. simpl.
  by rewrite list_lookup_insert_eq.
Qed.

(** ** Closing, then activating *)

(** X6: a window that was closed comes back with the next call of the
    exported function: the call finds it, restores it on Linux, shows it
    elsewhere, and focuses it.  The dock icon hidden by the close on Mac is
    not shown again by the call, which never calls [app.dock.show]. *)
Theorem close_then_activate env es w win :
  let s := run env es init in
  windows s !! w = Some win → win_destroyed win = false →
  let s' := run env [CloseRequest w; Activate] s in
  front s' w ∧
  dock s' = (if isLinux (platform env) then dock s
             else if isMac (platform env) then false else dock s) ∧
  calls s' = calls s ++
    (if isLinux (platform env) then
       [CPreventDefault; CMinimize w; CRestore w] ++
       (if win_visible win then [] else [CShow w]) ++ [CFocus w]
     else
       [CPreventDefault; CHide w] ++
       (if isMac (platform env) then [CDockHide] else []) ++
       (if win_minimized win then [CRestore w] else []) ++
       [CShow w; CFocus w]).
Proof.
  cbv zeta. set (s := run env es init). intros Hw Hd.
  assert (wf s) as Hwf by apply run_wf.
  pose proof (lookup_lt_Some _ _ _ Hw) as Hlt.
  change (run env [CloseRequest w; Activate] s)
    with (step env Activate (step env (CloseRequest w) s)).
  set (s1 := step env (CloseRequest w) s).
  assert (wf s1) as Hwf1 by by apply step_wf.
  assert (s1 = closed env w win s) as Hs1.
  { unfold s1, step. by rewrite (close_request_spec _ _ _ _ Hwf Hw Hd). }
  assert (∃ win1, windows s1 !! w = Some win1 ∧ win_destroyed win1 = false ∧
            dock s1 = (if isLinux (platform env) then dock s
                       else if isMac (platform env) then false else dock s) ∧
            calls s1 ++ activation_calls w win1 = calls s ++
              (if isLinux (platform env) then
                 [CPreventDefault; CMinimize w; CRestore w] ++
                 (if win_visible win then [] else [CShow w]) ++ [CFocus w]
               else
                 [CPreventDefault; CHide w] ++
                 (if isMac (platform env) then [CDockHide] else []) ++
                 (if win_minimized win then [CRestore w] else []) ++
                 [CShow w; CFocus w]))
    as (win1 & Hw1 & Hd1 & Hdock & Hcalls).
  { rewrite Hs1. unfold closed, activation_calls.
    destruct (isLinux (platform env)); [|destruct (isMac (platform env))];
      simpl; rewrite list_lookup_insert_eq by done;
      (eexists; split; [reflexivity|]); simpl;
      (split; [done|]); (split; [done|]);
      rewrite <- ?app_assoc; simpl; reflexivity. }
  assert (find_not_destroyed (windows s1) = Some w) as Hf.
  { apply wf_find_live; [done|]. by exists win1. }
  destruct (resume_spec s1 w win1 Hw1 Hd1)
    as (win' & Hr & Hd' & Hm' & Hv' & Hf' & _).
  assert (step env Activate s1 = (restoreOrCreateWindow_resume w s1).1) as ->
    by (unfold step; by rewrite (activate_found _ _ _ Hf)).
  rewrite Hr. cbn [fst dock calls]. rewrite Hcalls, Hdock. split; [|by split].
  exists win'. cbn [windows].
  by rewrite list_lookup_insert_eq by apply (lookup_lt_Some _ _ _ Hw1).
Qed.

(** ** Two calls, one load *)

Lemma find_after_destroyed (ws : list BrowserWindow) win :
  Forall (λ win, win_destroyed win = true) ws → win_destroyed win = false →
  find_not_destroyed (ws ++ [win]) = Some (length ws).
Proof.
  intros Hall Hd. unfold find_not_destroyed.
  induction Hall as [|x l Hx _ IH]; simpl.
  - by rewrite decide_True.
  - rewrite decide_False by congruence.
    destruct (list_find _ (l ++ [win])) as [[i y]|]; simpl in *; [|done].
    by simplify_eq.
Qed.

(** X7: a second call of the exported function made while the first is
    still waiting for the load does not construct or load anything: it
    finds the window the first call constructed, shows and focuses it before
    the load has settled, and returns at once.  One window, one load. *)
Theorem second_call_during_load env s :
  find_not_destroyed (windows s) = None →
  let n := length (windows s) in
  let s2 := run env [Activate; Activate] s in
  (dispatch env Activate (step env Activate s)).2 = Ok tt ∧
  length (windows s2) = S n ∧
  loads s2 = loads s ++ [n] ∧
  front s2 n ∧
  calls s2 = calls s ++ construction_calls env n ++ [CShow n; CFocus n].
Proof.
  intros Hf. cbv zeta.
  change (run env [Activate; Activate] s)
    with (step env Activate (step env Activate s)).
  set (s1 := step env Activate s).
  set (win :=
    mkWindow (browserWindowConstructorOptions env)
      (window_registrations (length (windows s))) false false false false false
      (Some (pageUrl env))).
  assert (windows s1 = windows s ++ [win] ∧ loads s1 = loads s ++ [length (windows s)] ∧
          calls s1 = calls s ++ construction_calls env (length (windows s)))
    as (Hws1 & Hls1 & Hcs1).
  { unfold s1, step. by rewrite (activate_created _ _ Hf), createWindow_spec. }
  assert (windows s1 !! length (windows s) = Some win) as Hw1.
  { rewrite Hws1. by apply list_lookup_middle. }
  assert (find_not_destroyed (windows s1) = Some (length (windows s))) as Hf1.
  { rewrite Hws1. apply find_after_destroyed; [|done].
    by apply find_not_destroyed_None. }
  destruct (resume_spec s1 (length (windows s)) win Hw1 eq_refl)
    as (win' & Hr & Hd' & Hm' & Hv' & Hf' & _).
  assert (dispatch env Activate s1 =
            restoreOrCreateWindow_resume (length (windows s)) s1) as Hdisp
    by apply (activate_found _ _ _ Hf1).
  unfold step at 1 2 3 4. rewrite Hdisp, Hr. cbn [fst snd windows loads calls].
  split; [done|].
  split; [by rewrite length_insert, Hws1, length_app, Nat.add_1_r|].
  split; [done|]. split.
  - exists win'. cbn [windows].
    by rewrite list_lookup_insert_eq by apply (lookup_lt_Some _ _ _ Hw1).
  - rewrite Hcs1, <- app_assoc. reflexivity.
Qed.

(** ** The timer of each window *)

Section timers.
Variable env : Env.

Lemma dispatch_keeps_timers e :
  match e with
  | Activate | TimerFired _ => False
  | _ => True
  end → preserves (keeps timers) (dispatch env e).
Proof.
  destruct e; try done; intros _; unfold dispatch, emit_on_window;
    pres_with ltac:(first [ listener_step | solve [leaf] ]).
Qed.

Lemma dispatch_keeps_loads e :
  match e with
  | Activate | Loaded _ | LoadFailed _ => False
  | _ => True
  end → preserves (keeps loads) (dispatch env e).
Proof.
  destruct e; try done; intros _; unfold dispatch, emit_on_window;
    pres_with ltac:(first [ listener_step | solve [leaf] ]).
Qed.

(** A timer firing: the callback sends the placeholder to its window, or
    throws when that window is destroyed. *)
Lemma timer_fired_spec s k w :
  timers s !! k = Some (Heartbeat w) →
  dispatch env (TimerFired k) s =
    if decide (destroyed_flags s !! w = Some false) then
      (log (CSend w "container-stopped-event" [VStr "containerID"])
           (set_timers (delete k (timers s)) s), Ok tt)
    else (set_timers (delete k (timers s)) s, Throw destroyed_error).
Proof.
  intros Hk. unfold dispatch, timer_callback. unfold_host. simpl. rewrite Hk. simpl.
  unfold destroyed_flags. rewrite list_lookup_fmap.
  destruct (windows s !! w) as [win|]; simpl; [|done].
  destruct (win_destroyed win); simpl; done.
Qed.

Lemma timer_fired_none s k :
  timers s !! k = None → dispatch env (TimerFired k) s = (s, Ok tt).
Proof. intros Hk. unfold dispatch. unfold_host. simpl. by rewrite Hk. Qed.

Lemma step_timers s e :
  e ≠ Activate → timers (step env e s) `sublist_of` timers s.
Proof.
  intros Hne. unfold step. destruct e; try done;
    try (match goal with
         | |- context [dispatch env ?e s] =>
             rewrite (dispatch_keeps_timers e I s); reflexivity
         end).
  destruct (timers s !! k) as [[w]|] eqn:Hk.
  - rewrite (timer_fired_spec _ _ _ Hk). case_decide; simpl; apply sublist_delete.
  - by rewrite (timer_fired_none _ _ Hk).
Qed.
End timers.

(** X8: each construction starts one timer and a timer is gone once it has
    fired, so after any run the timers still to fire are some of the
    windows' timers, in the order of construction and none twice.  When one
    fires it sends the placeholder ['containerID'] to its own window; if
    that window was destroyed in the meantime, nothing having cancelled the
    timer, the callback throws and sends nothing. *)
Theorem heartbeat_timers env es k :
  let s := run env es init in
  timers s `sublist_of` (Heartbeat <$> seq 0 (length (windows s))) ∧
  NoDup (timers s) ∧
  dispatch env (TimerFired k) s =
    match timers s !! k with
    | Some (Heartbeat w) =>
        if decide (destroyed_flags s !! w = Some false) then
          (log (CSend w "container-stopped-event" [VStr "containerID"])
               (set_timers (delete k (timers s)) s), Ok tt)
        else (set_timers (delete k (timers s)) s, Throw destroyed_error)
    | None => (s, Ok tt)
    end.
Proof.
  cbv zeta.
  assert (∀ s, wf s →
            timers s `sublist_of` (Heartbeat <$> seq 0 (length (windows s))) →
            timers (run env es s) `sublist_of`
              (Heartbeat <$> seq 0 (length (windows (run env es s))))) as Hsub.
  { apply (run_invariant env (λ s,
      timers s `sublist_of` (Heartbeat <$> seq 0 (length (windows s))))).
    - intros s _ _ Hs. rewrite createWindow_spec. simpl.
      rewrite length_app, Nat.add_1_r, seq_S, fmap_app. simpl.
      by apply sublist_app.
    - intros s w _ Hs.
      assert (preserves (keeps timers) (restoreOrCreateWindow_resume w)) as Hk
        by (unfold restoreOrCreateWindow_resume; pres_with leaf).
      rewrite (Hk s).
      by rewrite (flags_grow_length _ _ (keeps_flags_grow _ _ (resume_keeps_flags w s))).
    - intros s e _ Hne Hs.
      pose proof (flags_grow_length _ _ (dispatch_grow env e Hne s)) as Hlen.
      fold (step env e s) in Hlen. rewrite Hlen.
      etrans; [by apply step_timers | done]. }
  specialize (Hsub init init_wf (sublist_nil_l _)).
  split; [done|]. split.
  - eapply sublist_NoDup; [|exact Hsub].
    apply NoDup_fmap_2; [by intros ?? [=] | apply NoDup_seq].
  - destruct (timers (run env es init) !! k) as [[w]|] eqn:Hk.
    + by apply timer_fired_spec.
    + by apply timer_fired_none.
Qed.

(** ** After the application has started to quit *)

Lemma none_live_use s w :
  (∀ w, ¬ is_live s w) → use w s = (s, Throw destroyed_error).
Proof.
  intros Hnone. unfold use, bind, gets, throw, ret.
  destruct (windows s !! w) as [win|] eqn:Hw; [|done].
  destruct (win_destroyed win) eqn:Hd; [done|].
  destruct (Hnone w). by exists win.
Qed.

Lemma none_live_destroy s w :
  (∀ w, ¬ is_live s w) → destroy_window w s = (s, Ok tt).
Proof.
  intros Hnone. unfold destroy_window, bind, gets, ret.
  destruct (windows s !! w) as [win|] eqn:Hw; [|done].
  destruct (win_destroyed win) eqn:Hd; [done|].
  destruct (Hnone w). by exists win.
Qed.

Lemma none_live_before_quit s (ls : list AppListener) :
  (∀ w, ¬ is_live s w) → emit app_listener ls s = (s, Ok tt).
Proof.
  intros Hnone. induction ls as [|[w] ls IH]; [done|].
  simpl. unfold bind. by rewrite none_live_destroy.
Qed.

Lemma after_quit_none_live env s w :
  wf s → ¬ is_live (step env BeforeQuit s) w.
Proof.
  intros Hwf. rewrite is_live_flags.
  destruct (decide (w < length (windows s))) as [Hlt|Hge].
  - destruct (before_quit_spec env s w Hwf Hlt) as [_ ->]. done.
  - rewrite lookup_ge_None_2; [done|].
    rewrite flags_length. unfold step.
    rewrite (flags_grow_length _ _ (dispatch_grow env BeforeQuit ltac:(done) s)).
    lia.
Qed.

(** X9: the before-quit hook destroys the window and cleans up nothing
    else: the listeners stay registered and the timers, the pickers and the
    call waiting for the load stay pending.  Whatever of these comes due
    afterwards throws on the destroyed window and sends nothing, and a
    second before-quit changes nothing. *)
Theorem after_quit env es k response :
  let s := run env es init in
  let q := step env BeforeQuit s in
  (dispatch env BeforeQuit s).2 = Ok tt ∧
  (registry q = registry s ∧ timers q = timers s ∧
   dialogs q = dialogs s ∧ loads q = loads s) ∧
  dispatch env (TimerFired k) q =
    match timers q !! k with
    | Some _ => (set_timers (delete k (timers q)) q, Throw destroyed_error)
    | None => (q, Ok tt)
    end ∧
  dispatch env (DialogClosed k response) q =
    match dialogs q !! k with
    | Some _ => (set_dialogs (delete k (dialogs q)) q, Throw destroyed_error)
    | None => (q, Ok tt)
    end ∧
  dispatch env (Loaded k) q =
    match loads q !! k with
    | Some _ => (set_loads (delete k (loads q)) q, Throw destroyed_error)
    | None => (q, Ok tt)
    end ∧
  dispatch env BeforeQuit q = (q, Ok tt).
Proof.
  cbv zeta. set (s := run env es init). set (q := step env BeforeQuit s).
  assert (wf s) as Hwf by apply run_wf.
  assert (∀ w, ¬ is_live q w) as Hnone by (intros w; by apply after_quit_none_live).
  assert (∀ w, destroyed_flags q !! w ≠ Some false) as Hflags.
  { intros w Hw. apply (Hnone w). by apply is_live_flags. }
  split; [|split; [|split; [|split; [|split]]]].
  - destruct (decide (0 < length (windows s))) as [Hlt|Hge].
    + by destruct (before_quit_spec env s 0 Hwf Hlt).
    + simpl. unfold bind at 1, gets.
      rewrite (wf_app_listeners _ Hwf).
      replace (length (windows s)) with 0 by lia. done.
  - split; [|split; [|split]].
    + by apply (dispatch_keeps_registry env BeforeQuit).
    + by apply (dispatch_keeps_timers env BeforeQuit).
    + by apply (dispatch_keeps_dialogs env BeforeQuit).
    + by apply (dispatch_keeps_loads env BeforeQuit).
  - destruct (timers q !! k) as [[w]|] eqn:Hk.
    + rewrite (timer_fired_spec env q k w Hk). by rewrite decide_False.
    + by apply timer_fired_none.
  - destruct (dialogs q !! k) as [pd|] eqn:Hk.
    + rewrite (dialog_closed_spec env q k pd response Hk). by rewrite decide_False.
    + by apply dialog_closed_none.
  - destruct (loads q !! k) as [w|] eqn:Hk.
    + rewrite (loaded_spec env q k w Hk).
      unfold restoreOrCreateWindow_resume, isMinimized. unfold bind at 1 2.
      by rewrite none_live_use.
    + unfold dispatch. unfold bind at 1, gets. by rewrite Hk.
  - unfold dispatch. unfold bind at 1, gets. by apply none_live_before_quit.
Qed.

(** ** Messages nobody answers *)

(** X10: the controller listens on three channels only, and a dialog
    request that comes without its parameter is dropped: a message on any
    other channel, and a request on either dialog channel with no parameter,
    leave the host as it was: no picker, no response, no error thrown into
    the emitter. *)
Theorem ignored_messages env es channel event param :
  let s := run env es init in
  (channel ≠ "container-stopped-event" → channel ≠ "dialog:openFile" →
   channel ≠ "dialog:openFolder" →
   dispatch env (Ipc channel event param) s = (s, Ok tt)) ∧
  dispatch env (Ipc "dialog:openFile" event None) s = (s, Ok tt) ∧
  dispatch env (Ipc "dialog:openFolder" event None) s = (s, Ok tt).
Proof.
  cbv zeta. set (s := run env es init).
  assert (wf s) as Hwf by apply run_wf.
  split; [|split].
  - intros H1 H2 H3. unfold dispatch. unfold bind at 1, gets.
    rewrite (wf_ipc_listeners _ _ Hwf). unfold channel_listeners.
    apply String.eqb_neq in H1, H2, H3. by rewrite H1, H2, H3.
  - unfold dispatch. unfold bind at 1, gets.
    rewrite (wf_ipc_listeners _ _ Hwf). unfold channel_listeners. simpl.
    by apply emit_no_param.
  - unfold dispatch. unfold bind at 1, gets.
    rewrite (wf_ipc_listeners _ _ Hwf). unfold channel_listeners. simpl.
    by apply emit_no_param.
Qed.

(** ** What makes a window visible *)

Section visibility.
Variable env : Env.

Lemma dispatch_keeps_visible e :
  match e with
  | Activate | Loaded _ | ReadyToShow _ | CloseRequest _ => False
  | _ => True
  end → preserves (keeps visible_flags) (dispatch env e).
Proof.
  destruct e; try done; intros _; unfold dispatch, emit_on_window;
    pres_with ltac:(first [ listener_step | solve [windows_leaf] ]).
Qed.

Lemma close_request_visible s w' w :
  wf s →
  visible_flags (step env (CloseRequest w') s) !! w = Some true →
  visible_flags s !! w = Some true.
Proof.
  intros Hwf. unfold step.
  destruct (windows s !! w') as [win|] eqn:Hw;
    [destruct (win_destroyed win) eqn:Hd|].
  - simpl. unfold emit_on_window, bind, gets. by rewrite Hw, Hd.
  - rewrite (close_request_spec _ _ _ _ Hwf Hw Hd). unfold closed, visible_flags.
    destruct (isLinux _); [|destruct (isMac _)]; simpl;
      try (by rewrite (fmap_insert_same win_visible _ _ win));
      rewrite list_fmap_insert; simpl;
      (destruct (decide (w = w')) as [->|Hne];
        [ rewrite list_lookup_insert_eq;
            [done | rewrite length_fmap; by eapply lookup_lt_Some]
        | by rewrite list_lookup_insert_ne ]).
  - simpl. unfold emit_on_window, bind, gets. by rewrite Hw.
Qed.
End visibility.

(** X11: a window starts hidden and is made visible only by becoming ready
    to show or by the exported function (at the call, or when it resumes
    after the load): no message, timer, picker, close request or quit ever
    turns a window that is not visible into a visible one. *)
Theorem shown_only_when_ready_or_activated env es e w :
  let s := run env es init in
  may_show e = false →
  visible_flags (step env e s) !! w = Some true →
  visible_flags s !! w = Some true.
Proof.
  cbv zeta. set (s := run env es init). intros Hshow.
  assert (wf s) as Hwf by apply run_wf.
  destruct e; try discriminate Hshow;
    try (unfold step;
         match goal with
         | |- context [dispatch env ?e s] =>
             by rewrite (dispatch_keeps_visible env e I s)
         end).
  by apply close_request_visible.
Qed.

(** ** The further properties on sample runs *)

(** X1 after a quit and a second construction: the window that is left is
    the second one. *)
Lemma live_window_is_youngest_witness :
  let s := run linux_env [Activate; BeforeQuit; Activate] init in
  2 = length (windows s) ∧ find_not_destroyed (windows s) = Some 1.
Proof.
  assert (is_live (run linux_env [Activate; BeforeQuit; Activate] init) 1) as Hlive.
  { eexists. split; [vm_compute; reflexivity | reflexivity]. }
  pose proof (live_window_is_youngest linux_env [Activate; BeforeQuit; Activate] 1
                Hlive) as H.
  exact (conj (proj1 H) (proj2 (proj2 H))).
Defined.

(** X2 on Linux, over a run with a ready window and a close request. *)
Lemma dock_untouched_off_mac_witness :
  dock_calls (run linux_env [Activate; ReadyToShow 0; CloseRequest 0] init) = [].
Proof.
  exact (proj1 (dock_untouched_off_mac linux_env
                  [Activate; ReadyToShow 0; CloseRequest 0] eq_refl)).
Defined.

(** X3 on the production build. *)
Lemma devtools_closed_in_production_witness :
  devtools_calls (run linux_env [Activate; ReadyToShow 0; Loaded 0] init) = [].
Proof.
  exact (devtools_closed_in_production linux_env
           [Activate; ReadyToShow 0; Loaded 0] eq_refl).
Defined.

(** X5 on the development build on Mac: dock and developer tools. *)
Lemma ready_to_show_reveals_witness :
  let s := run mac_dev_env [Activate] init in
  calls (step mac_dev_env (ReadyToShow 0) s) =
    calls s ++ [CShow 0; CDockShow; COpenDevTools 0].
Proof.
  pose proof (ready_to_show_reveals mac_dev_env [Activate] 0) as H.
  cbv zeta in H. edestruct H as (_ & _ & _ & Hcalls).
  - vm_compute. reflexivity.
  - reflexivity.
  - exact Hcalls.
Defined.

(** X6 on Mac: the window is back, the dock icon is not. *)
Lemma close_then_activate_witness :
  let s := run mac_dev_env [Activate; ReadyToShow 0; Loaded 0] init in
  let s' := run mac_dev_env [CloseRequest 0; Activate] s in
  front s' 0 ∧ dock s = true ∧ dock s' = false.
Proof.
  pose proof (close_then_activate mac_dev_env [Activate; ReadyToShow 0; Loaded 0] 0)
    as H.
  cbv zeta in H. edestruct H as (Hfront & Hdock & _).
  - vm_compute. reflexivity.
  - reflexivity.
  - exact (conj Hfront (conj eq_refl Hdock)).
Defined.

(** X7 on the first two calls. *)
Lemma second_call_during_load_witness :
  let s2 := run linux_env [Activate; Activate] init in
  length (windows s2) = 1 ∧ loads s2 = [0] ∧ front s2 0.
Proof.
  pose proof (second_call_during_load linux_env init eq_refl) as H.
  cbv zeta in H. destruct H as (_ & Hlen & Hloads & Hfront & _).
  exact (conj Hlen (conj Hloads Hfront)).
Defined.

(** X10 on a channel the controller does not know. *)
Lemma ignored_messages_witness :
  let s := run linux_env [Activate] init in
  dispatch linux_env (Ipc "dialog:saveFile" VUndefined (Some (mkParam "A" "save"))) s
    = (s, Ok tt).
Proof.
  apply (proj1 (ignored_messages linux_env [Activate] "dialog:saveFile" VUndefined
                  (Some (mkParam "A" "save")))); discriminate.
Defined.

(** X11 on a request arriving at a visible window. *)
Lemma shown_only_when_ready_or_activated_witness :
  let s := run linux_env [Activate; ReadyToShow 0] init in
  visible_flags s !! 0 = Some true.
Proof.
  apply (shown_only_when_ready_or_activated linux_env [Activate; ReadyToShow 0]
           (Ipc "dialog:openFile" VUndefined (Some (mkParam "A" "pick"))) 0).
  - reflexivity.
  - vm_compute. reflexivity.
Defined.

(** A window that is hidden stays hidden through messages, timers and
    pickers, and the timer of a destroyed window throws. *)
Example hidden_until_ready :
  visible_flags
    (run linux_env
       [Activate;
        Ipc "dialog:openFile" VUndefined (Some (mkParam "A" "pick"));
        TimerFired 0; DialogClosed 0 (mkReturn true [])] init) = [false].
Proof. reflexivity. Qed.

Example timer_after_quit :
  dispatch linux_env (TimerFired 0) (run linux_env [Activate; BeforeQuit] init)
    = (set_timers [] (run linux_env [Activate; BeforeQuit] init),
       Throw destroyed_error).
Proof. vm_compute. reflexivity. Qed.
